(** * kops: the render dispatcher of [upup/pkg/fi] and the cluster
      defaulting of [upup/pkg/cloudup]

    A shallow embedding of

    - [upup/pkg/fi/context.go]: [Context], [Context.Close] and
      [Context.Render] (lifecycle gate, dry-run delegation, reflective
      resolution of the task's [Render*] method);
    - the cloudup defaulting file: [PerformAssignments],
      [ensureKubernetesVersion], [FindLatestKubernetesVersion],
      [assignProxy] and [incrementIP].

    Go values are modelled as follows.  A [string] is a Rocq [string]
    (bytes, read as UTF-8 where Go reads runes).  [error] values keep
    the format string and the arguments of the [fmt.Errorf] call that
    built them.  Code that returns early is written in a small state
    monad whose right injection means "the function is over"; for
    [Render] that is a returned error or a panic of the reflective
    call.  Library and repository code that is not part of these two
    files (reflection's [ConvertibleTo] and [AssignableTo], the method
    bodies of tasks, [buildChangeList], [os.RemoveAll], the [net]
    package, the cloud and channel lookups) is taken as a parameter,
    bundled in a class; concrete instances are given for the examples. *)

From Stdlib Require Import String Ascii List Bool Arith NArith ZArith Lia.
From Stdlib Require DecimalString.
Import ListNotations.
Local Open Scope string_scope.
Local Open Scope list_scope.

Set Implicit Arguments.

(* ================================================================== *)
(** * Part I: the model                                                 *)
(* ================================================================== *)

(** ** Go's [unicode/utf8] and [unicode] packages, as far as [fmt] and
       [strings.TrimSpace] use them *)

Module utf8.

(** [RuneError], U+FFFD *)
Definition RuneError : N := 65533%N.

(** The byte [s[i]] as a number. *)
Definition byte (c : ascii) : N := N_of_ascii c.

(** The tables [first] and [acceptRanges]: for the lead byte of a
    sequence of two to four bytes, the size of the sequence and the
    range the second byte must lie in; [None] for an ASCII byte
    and for a byte that starts no sequence. *)
Definition first (s0 : N) : option (nat * (N * N)) :=
  (if s0 <? 194 then None                              (* 00-C1 *)
   else if s0 <=? 223 then Some (2%nat, (128, 191))    (* C2-DF *)
   else if s0 =? 224 then Some (3%nat, (160, 191))     (* E0 *)
   else if s0 =? 237 then Some (3%nat, (128, 159))     (* ED *)
   else if s0 <=? 239 then Some (3%nat, (128, 191))    (* E1-EF *)
   else if s0 =? 240 then Some (4%nat, (144, 191))     (* F0 *)
   else if s0 <=? 243 then Some (4%nat, (128, 191))    (* F1-F3 *)
   else if s0 =? 244 then Some (4%nat, (128, 143))     (* F4 *)
   else None)%N.                                       (* F5-FF *)

(** A continuation byte: [locb <= c && c <= hicb]. *)
Definition continuation (c : N) : bool := ((128 <=? c) && (c <=? 191))%N.

(** [utf8.DecodeRuneInString(s)]: the first rune of [s] and its width
    in bytes; [(RuneError, 1)] for an encoding that is invalid or cut
    short, [(RuneError, 0)] for the empty string. *)
Definition DecodeRuneInString (s : string) : N * nat :=
  match s with
  | EmptyString => (RuneError, 0)
  | String c0 t0 =>
      let s0 := byte c0 in
      match first s0 with
      | None => (if (s0 <? 128)%N then s0 else RuneError, 1)
      | Some (sz, (lo, hi)) =>
          if (String.length s <? sz)%nat then (RuneError, 1)
          else
            match t0 with
            | EmptyString => (RuneError, 1)
            | String c1 t1 =>
                let s1 := byte c1 in
                if ((s1 <? lo) || (hi <? s1))%N then (RuneError, 1)
                else if (sz <=? 2)%nat then
                  (N.lor (N.shiftl (N.land s0 31) 6) (N.land s1 63), 2)
                else
                  match t1 with
                  | EmptyString => (RuneError, 1)
                  | String c2 t2 =>
                      let s2 := byte c2 in
                      if negb (continuation s2) then (RuneError, 1)
                      else if (sz <=? 3)%nat then
                        (N.lor (N.shiftl (N.land s0 15) 12)
                           (N.lor (N.shiftl (N.land s1 63) 6)
                                  (N.land s2 63)), 3)
                      else
                        match t2 with
                        | EmptyString => (RuneError, 1)
                        | String c3 _ =>
                            let s3 := byte c3 in
                            if negb (continuation s3) then (RuneError, 1)
                            else
                              (N.lor (N.shiftl (N.land s0 7) 18)
                                 (N.lor (N.shiftl (N.land s1 63) 12)
                                    (N.lor (N.shiftl (N.land s2 63) 6)
                                           (N.land s3 63))), 4)
                        end
                  end
            end
      end
  end.

(** The loop of [utf8.RuneCountInString]: one rune per step, an invalid
    or short encoding counting as one rune of one byte; [skip] counts
    the bytes of the current rune still to be stepped over. *)
Fixpoint runeCountFrom (skip : nat) (s : string) : nat :=
  match s with
  | EmptyString => 0
  | String _ s' =>
      match skip with
      | S k => runeCountFrom k s'
      | O => S (runeCountFrom (snd (DecodeRuneInString s) - 1) s')
      end
  end.

(** [utf8.RuneCountInString(s)] *)
Definition RuneCountInString (s : string) : nat := runeCountFrom 0 s.

(** The bytes of [s] from the last to the first. *)
Definition reverse (s : string) : string :=
  string_of_list_ascii (rev (list_ascii_of_string s)).

(** [utf8.RuneStart(b)]: [b] is not a continuation byte. *)
Definition RuneStart (b : N) : bool := negb (N.land b 192 =? 128)%N.

(** [utf8.DecodeLastRuneInString(s)] on [r], the bytes of [s] from the
    last to the first: an ASCII last byte is the rune; otherwise the
    rune is decoded from [s[start:end]], [start] being the nearest rune
    start before the last byte and not before [lim = end - UTFMax] (or
    [lim] when there is none), and counts only if its encoding reaches
    the end of [s]. *)
Definition decodeLast (r : string) : N * nat :=
  match r with
  | EmptyString => (RuneError, 0)
  | String c1 r1 =>
      if (byte c1 <? 128)%N then (byte c1, 1)
      else
        let one := String c1 EmptyString in
        let tail :=
          match r1 with
          | EmptyString => one
          | String c2 r2 =>
              let two := String c2 one in
              if RuneStart (byte c2) then two
              else
                match r2 with
                | EmptyString => two
                | String c3 r3 =>
                    let three := String c3 two in
                    if RuneStart (byte c3) then three
                    else
                      match r3 with
                      | EmptyString => three
                      | String c4 _ => String c4 three
                      end
                end
          end in
        let (rune, size) := DecodeRuneInString tail in
        if (size =? String.length tail)%nat then (rune, size)
        else (RuneError, 1)
  end.

(** [utf8.DecodeLastRuneInString(s)] *)
Definition DecodeLastRuneInString (s : string) : N * nat :=
  decodeLast (reverse s).

End utf8.

Module unicode.

(** [unicode.IsSpace(r)]: the Latin-1 spaces [\t], [\n], [\v], [\f],
    [\r], [' '], U+0085, U+00A0 and, beyond Latin-1, the code points of
    the property [White_Space]: U+1680, U+2000 to U+200A, U+2028,
    U+2029, U+202F, U+205F and U+3000. *)
Definition IsSpace (r : N) : bool :=
  (((9 <=? r) && (r <=? 13)) || (r =? 32) || (r =? 133) || (r =? 160)
   || (r =? 5760) || ((8192 <=? r) && (r <=? 8202))
   || (r =? 8232) || (r =? 8233) || (r =? 8239) || (r =? 8287)
   || (r =? 12288))%N.

End unicode.

(** ** Go's [strings] package, as far as the two files use it *)

Module strings.

(** [strings.HasPrefix(s, prefix)] *)
Definition HasPrefix (s prefix : string) : bool := String.prefix prefix s.

(** [strings.Contains(s, substr)]: [substr] occurs in [s] at some
    offset. *)
Fixpoint Contains (s substr : string) : bool :=
  String.prefix substr s
  || match s with
     | EmptyString => false
     | String _ s' => Contains s' substr
     end.

(** The scanning loop of [strings.Split] for a non-empty separator:
    [cur] is the piece being collected, [skip] counts the bytes of a
    separator occurrence that are still to be stepped over. *)
Fixpoint splitFrom (sep : string) (skip : nat) (cur s : string)
  : list string :=
  match s with
  | EmptyString => [cur]
  | String ch s' =>
      match skip with
      | S k => splitFrom sep k cur s'
      | O =>
          if String.prefix sep s
          then cur :: splitFrom sep (String.length sep - 1) EmptyString s'
          else splitFrom sep 0 (cur ++ String ch EmptyString) s'
      end
  end.

(** [strings.Split(s, sep)] for a non-empty [sep] (both call sites pass
    a one-byte separator). *)
Definition Split (s sep : string) : list string :=
  splitFrom sep 0 EmptyString s.

(** [strings.Join(elems, sep)] *)
Definition Join (elems : list string) (sep : string) : string :=
  String.concat sep elems.

(** [strings.TrimLeftFunc(s, unicode.IsSpace)]: the runes of [s] are
    decoded from the front and dropped while they are white space;
    [skip] counts the bytes of a dropped rune still to be stepped
    over. *)
Fixpoint trimLeftFrom (skip : nat) (s : string) : string :=
  match s with
  | EmptyString => EmptyString
  | String _ s' =>
      match skip with
      | S k => trimLeftFrom k s'
      | O =>
          let (r, size) := utf8.DecodeRuneInString s in
          if unicode.IsSpace r then trimLeftFrom (size - 1) s' else s
      end
  end.

Definition trimLeft (s : string) : string := trimLeftFrom 0 s.

(** [strings.TrimRightFunc(s, unicode.IsSpace)] on the bytes of [s]
    from the last to the first: the runes are decoded from the end
    with [utf8.DecodeLastRuneInString] and dropped while they are white
    space. *)
Fixpoint trimRightFrom (skip : nat) (r : string) : string :=
  match r with
  | EmptyString => EmptyString
  | String _ r' =>
      match skip with
      | S k => trimRightFrom k r'
      | O =>
          let (rune, size) := utf8.decodeLast r in
          if unicode.IsSpace rune then trimRightFrom (size - 1) r' else r
      end
  end.

Definition trimRight (s : string) : string :=
  utf8.reverse (trimRightFrom 0 (utf8.reverse s)).

(** [strings.TrimSpace(s)]: [s] without its leading and trailing white
    space, as Unicode defines it.  (Go's loop over the ASCII bytes is a
    fast path of [TrimFunc(s, unicode.IsSpace)] and returns the same
    string.) *)
Definition TrimSpace (s : string) : string := trimRight (trimLeft s).

End strings.

(** [dropString n s]: [s] without its first [n] bytes. *)
Fixpoint dropString (n : nat) (s : string) : string :=
  match n, s with
  | S k, String _ s' => dropString k s'
  | _, _ => s
  end.

(** Bytes that cannot be written inside a literal. *)
Definition nl : string := String (ascii_of_nat 10) EmptyString.
Definition tab : string := String (ascii_of_nat 9) EmptyString.


(** ** Errors and logging *)

(** An [error] built by [fmt.Errorf(format, args...)]; an argument is a
    string (the value printed by [%s], [%q], [%T] or [%v]) or another
    error. *)
Inductive error : Type :=
| Errorf (format : string) (args : list fmtArg)
with fmtArg : Type :=
| ArgStr (s : string)
| ArgErr (e : error).

(** One [glog] call: [glog.V(v).Infof], [glog.Infof] (level 0) or
    [glog.Warningf], with its format and arguments. *)
Inductive LogLine : Type :=
| Infof (v : nat) (format : string) (args : list fmtArg)
| Warningf (format : string) (args : list fmtArg).

(** ** Package [fi]: [context.go] *)

Module fi.

(** A [reflect.Type], identified by the name [%T] prints. *)
Definition GoType := string.

(** Modelled from the spec: the [Lifecycle] type is declared outside
    [context.go]; the spec lists [Sync], [ExistsAndValidates],
    [ExistsAndWarnIfChanges] and further policies. *)
Inductive Lifecycle : Type :=
| LifecycleSync
| LifecycleExistsAndValidates
| LifecycleExistsAndWarnIfChanges
| LifecycleOther (name : string).

(** A [Task] interface value.  Every task of the repository is a
    pointer to a struct, so a value has a dynamic type, is a nil or a
    non-nil pointer, and (when its type implements [HasLifecycle])
    answers [GetLifecycle()] with a possibly nil [*Lifecycle].  The nil
    interface and the kinds that are not pointers, on which reflection
    panics, are outside the model. *)
Record Task : Type := mkTask {
  TypeOf : GoType;
  IsNil : bool;
  HasLifecycle : option (option Lifecycle);
  Fields : list (string * string)
}.

(** The [Target] interface: the [*DryRunTarget] singleton of the run
    or a backend target of some other concrete type. *)
Inductive Target : Type :=
| DryRunTarget
| BackendTarget (t : GoType).

(** [Context]: the fields of the struct that are values; the cloud,
    keystore, secret store, DNS and config-base handles are opaque to
    this file and left out.  [Target_] is the field [Target]. *)
Record Context : Type := mkContext {
  Tmpdir : string;
  Target_ : Target;
  CheckExisting : bool;
  tasks : list (string * Task)
}.

(** A [reflect.Value] passed to the resolved method. *)
Inductive Value : Type :=
| ValueOfContext (c : Context)
| ValueOfTarget (t : Target)
| ValueOfTask (t : Task).

(** A [reflect.Method] of a type: its name and [Type.In(0..NumIn-1)],
    the receiver first. *)
Record Method : Type := mkMethod {
  Name : string;
  TypeIn : list GoType
}.

(** An entry of the change list. *)
Record change : Type := mkChange {
  FieldName : string;
  Description : string
}.

(** Modelled from the spec: what the Dry-Run Target records per call,
    the triple [(actual, expected, changes)]. *)
Record render : Type := mkRender {
  renderA : Task;
  renderE : Task;
  renderChanges : Task
}.

(** A result [rv[i]] of a method called through reflection, as far as
    [Render] looks at it: a nil of a kind that has one (an interface, a
    pointer, ...), a non-nil value that is an [error], or anything
    else. *)
Inductive Result : Type :=
| ResultNil
| ResultError (err : error)
| ResultOther.

(** How the body of a method called through reflection ends: it
    returns its results or it panics. *)
Inductive Ran : Type :=
| Returned (rv : list Result)
| Panicked.

(** Why [Render] panics. *)
Inductive PanicCause : Type :=
  (** [Call] on the zero [Value] of a name that is no method *)
| CallOnZeroValue
  (** [reflect: Call with too few input arguments] *)
| TooFewArguments
  (** [reflect: Call with too many input arguments] *)
| TooManyArguments
  (** [reflect: Call using xt as type targ] *)
| NotAssignable (xt targ : GoType)
  (** the panic of the method body *)
| PanicInMethod
  (** [rv[0]] of a method without results *)
| IndexOutOfRange
  (** [rv[0].IsNil()] on a kind without nil, or [.(error)] on a value
      that is no error *)
| NotAnError.

(** How a call of [Render] ends: it returns its [error] (possibly nil)
    or it panics. *)
Inductive Outcome : Type :=
| Returns (err : option error)
| Panics (cause : PanicCause).

(** What [context.go] uses and does not define. *)
Class Env : Type := {
  (** the file system [os.RemoveAll] works on *)
  FS : Type;
  (** the state behind a backend target *)
  Ext : Type;
  (** [arg.ConvertibleTo(t)] *)
  ConvertibleTo : GoType -> GoType -> bool;
  (** [vType.Method(i)] for [i < vType.NumMethod()] *)
  methodSet : GoType -> list Method;
  (** the methods of a type have distinct names, as Go requires *)
  methodSet_names : forall t, NoDup (map Name (methodSet t));
  (** [xt.AssignableTo(targ)] *)
  AssignableTo : GoType -> GoType -> bool;
  (** the body of the method [name] of receiver [v], run on arguments
      that fit its parameters: its effect and how it ends *)
  callMethod : Task -> string -> list Value -> Ext -> Ext * Ran;
  (** [buildChangeList(a, e, changes)] *)
  buildChangeList : Task -> Task -> Task -> list change + error;
  (** [getTaskName(e)] *)
  getTaskName : Task -> string;
  (** [os.RemoveAll(path)] *)
  os_RemoveAll : string -> FS -> FS * option error
}.

Section Model.
Context {E : Env}.

(** What a call can touch. [invoked] is a ghost log of the method
    bodies run through reflection. *)
Record World : Type := mkWorld {
  stderr : string;
  glog : list LogLine;
  fs : FS;
  dryRunChanges : list render;
  ext : Ext;
  invoked : list (string * list Value)
}.

(** The body of a function returning [R]: it yields a value to
    continue with ([inl]) or has returned ([inr]). *)
Definition Fn (R A : Type) : Type := World -> World * (A + R).

Definition ret {R A} (x : A) : Fn R A := fun w => (w, inl x).
Definition Return {R A} (r : R) : Fn R A := fun w => (w, inr r).
Definition bind {R A B} (m : Fn R A) (k : A -> Fn R B) : Fn R B :=
  fun w =>
    match m w with
    | (w', inl x) => k x w'
    | (w', inr r) => (w', inr r)
    end.
Definition run {R} (m : Fn R R) (w : World) : World * R :=
  match m w with
  | (w', inl r) => (w', r)
  | (w', inr r) => (w', r)
  end.

Definition glogf {R} (l : LogLine) : Fn R unit := fun w =>
  (mkWorld (stderr w) (glog w ++ [l]) (fs w) (dryRunChanges w) (ext w)
           (invoked w), inl tt).

(** [b.WriteTo(os.Stderr)] *)
Definition WriteTo_Stderr {R} (b : string) : Fn R unit := fun w =>
  (mkWorld (stderr w ++ b) (glog w) (fs w) (dryRunChanges w) (ext w)
           (invoked w), inl tt).

(** Modelled from the spec: [DryRunTarget.Render], which is not in
    [context.go], records the triple and returns success. *)
Definition DryRunTarget_Render {R} (a e changes : Task)
  : Fn R (option error) := fun w =>
  (mkWorld (stderr w) (glog w) (fs w)
           (dryRunChanges w ++ [mkRender a e changes]) (ext w)
           (invoked w), inl None).

End Model.

Declare Scope fn_scope.
Notation "x <- m ;; k" := (bind m (fun x => k))
  (at level 61, m at next level, right associativity) : fn_scope.
Notation "m ;; k" := (bind m (fun _ => k))
  (at level 61, right associativity) : fn_scope.
Local Open Scope fn_scope.

Section Render.
Context {E : Env}.

(** [func (c *Context) AllTasks() map[string]Task] *)
Definition AllTasks (c : Context) : list (string * Task) := tasks c.

(** [os.RemoveAll(path)] *)
Definition RemoveAll {R} (path : string) : Fn R (option error) := fun w =>
  let (fs', err) := os_RemoveAll path (fs w) in
  (mkWorld (stderr w) (glog w) fs' (dryRunChanges w) (ext w) (invoked w),
   inl err).

(** [func (c *Context) Close()] *)
Definition Close (c : Context) (w : World) : World :=
  fst (run (
    glogf (Infof 2 "deleting temp dir: %q" [ArgStr (Tmpdir c)]) ;;
    if negb (Tmpdir c =? EmptyString) then
      err <- RemoveAll (Tmpdir c) ;;
      match err with
      | Some err =>
          glogf (Warningf "unable to delete temporary directory %q: %v"
                          [ArgStr (Tmpdir c); ArgErr err])
      | None => ret tt
      end
    else ret tt) w).

(** [var typeContextPtr = reflect.TypeOf(( *Context)(nil))] *)
Definition typeContextPtr : GoType := "*fi.Context".

(** [reflect.ValueOf(c.Target).Type()] *)
Definition typeOfTarget (t : Target) : GoType :=
  match t with
  | DryRunTarget => "*fi.DryRunTarget"
  | BackendTarget ty => ty
  end.

(** [reflect.ValueOf(x).Type()] of an argument of the call. *)
Definition typeOfValue (x : Value) : GoType :=
  match x with
  | ValueOfContext _ => typeContextPtr
  | ValueOfTarget t => typeOfTarget t
  | ValueOfTask t => TypeOf t
  end.

(** [v.MethodByName(name)]: the method of that name, if the type has
    one. *)
Definition MethodByName (vType : GoType) (name : string) : option Method :=
  find (fun m => Name m =? name) (methodSet vType).

(** The loop of [Value.Call] over the arguments: the first [in[i]]
    whose type is not assignable to the parameter type [t.In(i)]. *)
Fixpoint notAssignable (args : list Value) (params : list GoType)
  : option PanicCause :=
  match args, params with
  | x :: args', targ :: params' =>
      if AssignableTo (typeOfValue x) targ then notAssignable args' params'
      else Some (NotAssignable (typeOfValue x) targ)
  | _, _ => None
  end.

(** What [Value.Call] checks before it runs the function: the number
    of the arguments, then their types.  (No matching method is
    variadic in this model: a variadic parameter has a slice type.) *)
Definition checkCall (args : list Value) (params : list GoType)
  : option PanicCause :=
  if (List.length args <? List.length params)%nat then Some TooFewArguments
  else if (List.length params <? List.length args)%nat
       then Some TooManyArguments
  else notAssignable args params.

(** [v.MethodByName(name).Call(args)]: the bound method takes the
    parameters after the receiver; [Call] panics when the arguments do
    not fit them and runs the method body otherwise. *)
Definition Call (recv : Task) (name : string) (args : list Value)
  : Fn Outcome (list Result) := fun w =>
  match MethodByName (TypeOf recv) name with
  | None => (w, inr (Panics CallOnZeroValue))
  | Some m =>
      match checkCall args (tl (TypeIn m)) with
      | Some cause => (w, inr (Panics cause))
      | None =>
          let (ext', ran) := callMethod recv name args (ext w) in
          let w' := mkWorld (stderr w) (glog w) (fs w) (dryRunChanges w)
                            ext' (invoked w ++ [(name, args)]) in
          match ran with
          | Returned rv => (w', inl rv)
          | Panicked => (w', inr (Panics PanicInMethod))
          end
      end
  end.

(** [fmt.Fprintf(b, ...)] on a [bytes.Buffer]: the formatted text is
    appended. *)
Definition Fprintf (b : string) (text : string) : string := b ++ text.

Fixpoint spaces (n : nat) : string :=
  match n with
  | O => EmptyString
  | S k => String " " (spaces k)
  end.

(** The verb [%-20s] (here for any width): the string, then spaces
    up to the width, which [fmt] counts in runes. *)
Definition padRight (width : nat) (s : string) : string :=
  s ++ spaces (width - utf8.RuneCountInString s).

(** The body of [for _, change := range changeList]. *)
Definition writeChange (b : string) (change : change) : string :=
  let lines := strings.Split (Description change) nl in
  if (List.length lines =? 1)%nat then
    Fprintf b ("  " ++ tab ++ padRight 20 (FieldName change) ++ tab
               ++ Description change ++ nl)
  else
    let b := Fprintf b ("  " ++ tab ++ padRight 20 (FieldName change)
                        ++ nl) in
    fold_left
      (fun b line =>
         Fprintf b ("  " ++ tab ++ padRight 20 EmptyString ++ tab
                    ++ line ++ nl))
      lines b.

(** The buffer [b] of [Render] when it is written to [os.Stderr]. *)
Definition lifecycleReport (taskName : string) (changeList : list change)
  : string :=
  let b := EmptyString in
  let b := Fprintf b
    ("Object from different phase did not match, problems possible:"
     ++ nl) in
  let b := Fprintf b ("  " ++ taskName ++ "/" ++ "?" ++ nl) in
  let b := fold_left writeChange changeList b in
  Fprintf b nl.

(** The [if lifecycle != nil { ... }] block of [Render]: it returns
    from [Render] or falls through. *)
Definition lifecycleBlock (lifecycle : option Lifecycle)
           (a e changes : Task) : Fn Outcome unit :=
  match lifecycle with
  | Some lc =>
      if IsNil a then
        match lc with
        | LifecycleExistsAndValidates =>
            Return (Returns (Some (Errorf
              "Lifecycle set to ExistsAndValidates, but object was not found"
              [])))
        | LifecycleExistsAndWarnIfChanges =>
            Return (Returns (Some (Errorf
              "Lifecycle set to ExistsAndWarnIfChanges, but object was not found"
              [])))
        | _ => ret tt
        end
      else
        match lc with
        | LifecycleExistsAndValidates | LifecycleExistsAndWarnIfChanges =>
            match buildChangeList a e changes with
            | inr err => Return (Returns (Some err))
            | inl changeList =>
                let taskName := getTaskName e in
                WriteTo_Stderr (lifecycleReport taskName changeList) ;;
                match lc with
                | LifecycleExistsAndValidates =>
                    Return (Returns (Some (Errorf
                      "Lifecycle set to ExistsAndValidates, but object did not match"
                      [])))
                | _ =>
                    (* Warn, but then we continue *)
                    Return (Returns None)
                end
            end
        | _ => ret tt
        end
  | None => ret tt
  end.

(** The inner loop [for j := 0; j < method.Type.NumIn(); j++]:
    [None] when it leaves with [match = false], otherwise the
    collected [args]. *)
Fixpoint matchArgs (c : Context) (vType targetType : GoType)
         (ins : list GoType) (args : list Value) : option (list Value) :=
  match ins with
  | [] => Some args
  | arg :: ins' =>
      if ConvertibleTo arg vType then
        matchArgs c vType targetType ins' args
      else if ConvertibleTo arg typeContextPtr then
        matchArgs c vType targetType ins' (args ++ [ValueOfContext c])
      else if ConvertibleTo arg targetType then
        matchArgs c vType targetType ins'
                  (args ++ [ValueOfTarget (Target_ c)])
      else None
  end.

(** The outer loop [for i := 0; i < vType.NumMethod(); i++], from
    method [i] on, with the current [renderer] and [rendererArgs]. *)
Fixpoint findRenderer (c : Context) (vType targetType : GoType)
         (methods : list Method) (renderer : option (Method * list Value))
  : Fn Outcome (option (Method * list Value)) :=
  match methods with
  | [] => ret renderer
  | method :: rest =>
      if negb (strings.HasPrefix (Name method) "Render") then
        findRenderer c vType targetType rest renderer
      else
        match matchArgs c vType targetType (TypeIn method) [] with
        | Some args =>
            match renderer with
            | Some _ =>
                Return (Returns (Some (Errorf
                  "Found multiple Render methods that could be invokved on %T"
                  [ArgStr vType])))
            | None =>
                findRenderer c vType targetType rest (Some (method, args))
            end
        | None => findRenderer c vType targetType rest renderer
        end
  end.

(** [Render] from [v := reflect.ValueOf(e)] on. *)
Definition dispatch (c : Context) (a e changes : Task)
  : Fn Outcome Outcome :=
  let vType := TypeOf e in
  let targetType := typeOfTarget (Target_ c) in
  found <- findRenderer c vType targetType (methodSet vType) None ;;
  match found with
  | None =>
      Return (Returns (Some (Errorf
        "Could not find Render method on type %T (target %T)"
        [ArgStr vType; ArgStr targetType])))
  | Some (renderer, rendererArgs) =>
      let rendererArgs := rendererArgs ++ [ValueOfTask a] in
      let rendererArgs := rendererArgs ++ [ValueOfTask e] in
      let rendererArgs := rendererArgs ++ [ValueOfTask changes] in
      glogf (Infof 11 "Calling method %s on %T"
                   [ArgStr (Name renderer); ArgStr vType]) ;;
      rv <- Call e (Name renderer) rendererArgs ;;
      (* var rvErr error
         if !rv[0].IsNil() { rvErr = rv[0].Interface().(error) }
         return rvErr *)
      match rv with
      | [] => Return (Panics IndexOutOfRange)
      | ResultNil :: _ => Return (Returns None)
      | ResultError rvErr :: _ => Return (Returns (Some rvErr))
      | ResultOther :: _ => Return (Panics NotAnError)
      end
  end.

(** [var lifecycle *Lifecycle; if hl, ok := e.(HasLifecycle); ok
    { lifecycle = hl.GetLifecycle() }] *)
Definition lifecycleOf (e : Task) : option Lifecycle :=
  match HasLifecycle e with
  | Some l => l
  | None => None
  end.

(** [Render] after the lifecycle block: the dry-run delegation or the
    dispatch. *)
Definition renderToTarget (c : Context) (a e changes : Task)
  : Fn Outcome Outcome :=
  match Target_ c with
  | DryRunTarget =>
      r <- DryRunTarget_Render a e changes ;;
      Return (Returns r)
  | BackendTarget _ => dispatch c a e changes
  end.

(** [func (c *Context) Render(a, e, changes Task) error] *)
Definition Render (c : Context) (a e changes : Task) (w : World)
  : World * Outcome :=
  run (
    let lifecycle := lifecycleOf e in
    lifecycleBlock lifecycle a e changes ;;
    renderToTarget c a e changes) w.

End Render.

End fi.

(** ** The vocabulary of the specification for [Render] *)

Module RenderSpec.
Import fi.

Definition errorFormat (err : error) : string :=
  match err with
  | Errorf format _ => format
  end.

(** The error kinds of the specification, told apart by the message
    [Render] builds. *)
Definition LifecycleViolation (err : error) : bool :=
  strings.HasPrefix (errorFormat err) "Lifecycle set to ".

(** The two errors of the dispatch. *)
Definition multipleRenderers (vType : GoType) : error :=
  Errorf "Found multiple Render methods that could be invokved on %T"
         [ArgStr vType].

Definition noRenderer (vType targetType : GoType) : error :=
  Errorf "Could not find Render method on type %T (target %T)"
         [ArgStr vType; ArgStr targetType].

Section Spec.
Context {E : Env}.

(** A parameter is acceptable when it converts to the task's own
    type, to the Context type or to the type of the active Target. *)
Definition acceptable (vType targetType arg : GoType) : bool :=
  ConvertibleTo arg vType
  || ConvertibleTo arg typeContextPtr
  || ConvertibleTo arg targetType.

(** A method matches when its name begins with [Render] and every
    parameter is acceptable. *)
Definition matching (vType targetType : GoType) (m : Method) : bool :=
  strings.HasPrefix (Name m) "Render"
  && forallb (acceptable vType targetType) (TypeIn m).

(** The resolved arguments of a matching method: per parameter, in
    order, nothing for the task's own type, the running Context, or
    the active Target. *)
Definition resolved (c : Context) (vType : GoType) (ins : list GoType)
  : list Value :=
  flat_map
    (fun arg =>
       if ConvertibleTo arg vType then []
       else if ConvertibleTo arg typeContextPtr then [ValueOfContext c]
       else [ValueOfTarget (Target_ c)])
    ins.

(** The arguments of the call: the resolved ones, then [a], [e],
    [changes]. *)
Definition callArgs (c : Context) (a e changes : Task) (m : Method)
  : list Value :=
  resolved c (TypeOf e) (TypeIn m)
  ++ [ValueOfTask a; ValueOfTask e; ValueOfTask changes].

(** The world after the call of [m] was announced in the log. *)
Definition announced (e : Task) (m : Method) (w : World) : World :=
  mkWorld (stderr w)
          (glog w ++ [Infof 11 "Calling method %s on %T"
                            [ArgStr (Name m); ArgStr (TypeOf e)]])
          (fs w) (dryRunChanges w) (ext w) (invoked w).

(** What becomes of [Render] with the way the method ended: the
    first result, nil or an error, is returned; there is a panic when
    the method panicked, has no result, or has a first result that is
    neither. *)
Definition outcomeOf (ran : Ran) : Outcome :=
  match ran with
  | Panicked => Panics PanicInMethod
  | Returned [] => Panics IndexOutOfRange
  | Returned (ResultNil :: _) => Returns None
  | Returned (ResultError err :: _) => Returns (Some err)
  | Returned (ResultOther :: _) => Panics NotAnError
  end.

(** The reflective call of the method [m] with [args]: announced in
    the log, refused with a panic when the arguments do not fit the
    parameters after the receiver, and run otherwise. *)
Definition called (e : Task) (m : Method) (args : list Value) (w : World)
  : World * Outcome :=
  match checkCall args (tl (TypeIn m)) with
  | Some cause => (announced e m w, Panics cause)
  | None =>
      let r := callMethod e (Name m) args (ext w) in
      (mkWorld (stderr w) (glog (announced e m w)) (fs w) (dryRunChanges w)
               (fst r) (invoked w ++ [(Name m, args)]),
       outcomeOf (snd r))
  end.

(** The world after the lifecycle report for [changeList] went to
    the standard error stream, all else untouched. *)
Definition reported (e : Task) (changeList : list change) (w : World)
  : World :=
  mkWorld (stderr w ++ lifecycleReport (getTaskName e) changeList)
          (glog w) (fs w) (dryRunChanges w) (ext w) (invoked w).

End Spec.

(** The text of the report for one change, as the code lays it out:
    the field name padded to 20 columns, counted in runes; a
    description without a line break follows on the same line, one with
    line breaks follows line by line under an empty 20-column field. *)
Definition changeLines (ch : change) : string :=
  if strings.Contains (Description ch) nl then
    ("  " ++ tab ++ padRight 20 (FieldName ch) ++ nl
     ++ String.concat EmptyString
          (map (fun line => "  " ++ tab ++ spaces 20 ++ tab ++ line ++ nl)
               (strings.Split (Description ch) nl)))%string
  else
    ("  " ++ tab ++ padRight 20 (FieldName ch) ++ tab ++ Description ch
     ++ nl)%string.

Definition reportBanner : string :=
  "Object from different phase did not match, problems possible:".

(** The text for one change in the words of the specification: the
    line [  \t<field>\t<description>], or the field name alone and
    then the lines of the description, each after [indent]. *)
Definition specChangeLines (indent : string) (ch : change) : string :=
  if strings.Contains (Description ch) nl then
    (FieldName ch ++ nl
     ++ String.concat EmptyString
          (map (fun line => indent ++ line ++ nl)
               (strings.Split (Description ch) nl)))%string
  else
    ("  " ++ tab ++ FieldName ch ++ tab ++ Description ch ++ nl)%string.

(** The report in the words of the specification: a header line, the
    changes, a blank line. *)
Definition specReport (header indent : string) (changeList : list change)
  : string :=
  (header ++ nl
   ++ String.concat EmptyString (map (specChangeLines indent) changeList)
   ++ nl)%string.

End RenderSpec.

(** ** Package [kops]: the API types the defaulting code reads and
       writes *)

Module kops.

Record ObjectMeta : Type := mkObjectMeta {
  Name : string
}.

Record TopologySpec : Type := mkTopologySpec {
  Masters : string;
  Nodes : string
}.

Record EgressProxySpec : Type := mkEgressProxySpec {
  ProxyExcludes : string
}.

Record ClusterSubnetSpec : Type := mkClusterSubnetSpec {
  SubnetName : string;
  SubnetCIDR : string
}.

(** The fields of [ClusterSpec] the file mentions; [Topology] and
    [EgressProxy] are pointers. *)
Record ClusterSpec : Type := mkClusterSpec {
  Channel : string;
  CloudProvider : string;
  KubernetesVersion : string;
  NetworkCIDR : string;
  NetworkID : string;
  Topology : option TopologySpec;
  NonMasqueradeCIDR : string;
  MasterPublicName : string;
  ClusterDNSDomain : string;
  Subnets : list ClusterSubnetSpec;
  EgressProxy : option EgressProxySpec
}.

Record Cluster : Type := mkCluster {
  ObjectMeta_ : ObjectMeta;
  Spec : ClusterSpec
}.

Record VPCInfo : Type := mkVPCInfo {
  CIDR : string
}.

(** Field assignments [c.Spec.F = v]. *)
Definition withSpec (f : ClusterSpec -> ClusterSpec) (c : Cluster)
  : Cluster :=
  mkCluster (ObjectMeta_ c) (f (Spec c)).

Definition setKubernetesVersion (v : string) (s : ClusterSpec) :=
  mkClusterSpec (Channel s) (CloudProvider s) v (NetworkCIDR s)
    (NetworkID s) (Topology s) (NonMasqueradeCIDR s) (MasterPublicName s)
    (ClusterDNSDomain s) (Subnets s) (EgressProxy s).

Definition setNetworkCIDR (v : string) (s : ClusterSpec) :=
  mkClusterSpec (Channel s) (CloudProvider s) (KubernetesVersion s) v
    (NetworkID s) (Topology s) (NonMasqueradeCIDR s) (MasterPublicName s)
    (ClusterDNSDomain s) (Subnets s) (EgressProxy s).

Definition setTopology (v : option TopologySpec) (s : ClusterSpec) :=
  mkClusterSpec (Channel s) (CloudProvider s) (KubernetesVersion s)
    (NetworkCIDR s) (NetworkID s) v (NonMasqueradeCIDR s)
    (MasterPublicName s) (ClusterDNSDomain s) (Subnets s) (EgressProxy s).

Definition setNonMasqueradeCIDR (v : string) (s : ClusterSpec) :=
  mkClusterSpec (Channel s) (CloudProvider s) (KubernetesVersion s)
    (NetworkCIDR s) (NetworkID s) (Topology s) v (MasterPublicName s)
    (ClusterDNSDomain s) (Subnets s) (EgressProxy s).

Definition setMasterPublicName (v : string) (s : ClusterSpec) :=
  mkClusterSpec (Channel s) (CloudProvider s) (KubernetesVersion s)
    (NetworkCIDR s) (NetworkID s) (Topology s) (NonMasqueradeCIDR s) v
    (ClusterDNSDomain s) (Subnets s) (EgressProxy s).

Definition setSubnets (v : list ClusterSubnetSpec) (s : ClusterSpec) :=
  mkClusterSpec (Channel s) (CloudProvider s) (KubernetesVersion s)
    (NetworkCIDR s) (NetworkID s) (Topology s) (NonMasqueradeCIDR s)
    (MasterPublicName s) (ClusterDNSDomain s) v (EgressProxy s).

Definition setEgressProxy (v : option EgressProxySpec) (s : ClusterSpec) :=
  mkClusterSpec (Channel s) (CloudProvider s) (KubernetesVersion s)
    (NetworkCIDR s) (NetworkID s) (Topology s) (NonMasqueradeCIDR s)
    (MasterPublicName s) (ClusterDNSDomain s) (Subnets s) v.

End kops.

(** ** Package [net]: the data of an address and of a network *)

Module net.

(** [net.IP], a byte slice. *)
Definition IP := list Z.

(** [net.IPNet] *)
Record IPNet : Type := mkIPNet {
  NetIP : IP;
  Mask : list Z
}.

End net.

(** ** Package [cloudup]: the defaulting file *)

Module cloudup.
Import kops.

(** What the file uses and does not define. *)
Class Env : Type := {
  Cloud : Type;
  ChannelT : Type;
  (** the constant [kops.TopologyPublic] *)
  TopologyPublic : string;
  (** the constant [kopsversion.Version] *)
  kopsversion_Version : string;
  (** [BuildCloud(c)] *)
  BuildCloud : Cluster -> Cloud + error;
  (** [c.SharedVPC()] *)
  SharedVPC : Cluster -> bool;
  (** [cloud.FindVPCInfo(id)]: [vpcInfo] may be nil *)
  FindVPCInfo : Cloud -> string -> option VPCInfo + error;
  (** the subnets [assignCIDRsToSubnets(c)] computes *)
  subnetsWithCIDRs : Cluster -> list ClusterSubnetSpec + error;
  (** [kops.LoadChannel(location)] *)
  LoadChannel : string -> ChannelT + error;
  (** [kops.RecommendedKubernetesVersion(channel, version)], by its
      [String()], or nil *)
  RecommendedKubernetesVersion : ChannelT -> string -> option string;
  (** [vfs.Context.ReadFile(url)] *)
  vfs_ReadFile : string -> string + error;
  (** [net.ParseCIDR(s)] *)
  net_ParseCIDR : string -> (net.IP * net.IPNet) + error;
  (** [ipNet.Contains(ip)] *)
  IPNet_Contains : net.IPNet -> net.IP -> bool;
  (** [ip.String()] *)
  IP_String : net.IP -> string
}.

(** The state the functions work on: the cluster behind the pointer
    [c] and the log. *)
Record St : Type := mkSt {
  cluster : Cluster;
  glog : list LogLine
}.

(** A function body that may return an error: [inr err] stands for
    [return ..., err]; the state written so far is kept. *)
Definition M (A : Type) : Type := St -> St * (A + error).

Definition ret {A} (x : A) : M A := fun st => (st, inl x).
Definition fail {A} (err : error) : M A := fun st => (st, inr err).
Definition bind {A B} (m : M A) (k : A -> M B) : M B :=
  fun st =>
    match m st with
    | (st', inl x) => k x st'
    | (st', inr err) => (st', inr err)
    end.

(** [x, err := f(...); if err != nil { return err }] for a pure [f]. *)
Definition try {A} (r : A + error) : M A := fun st => (st, r).

(** [x, err := f(...); if err != nil { return e }] *)
Definition tryOr {A} (r : A + error) (e : error) : M A := fun st =>
  match r with
  | inl x => (st, inl x)
  | inr _ => (st, inr e)
  end.

(** Runs [m] and hands both of its results to the caller. *)
Definition results {A} (m : M A) : M (A + error) := fun st =>
  let (st', r) := m st in (st', inl r).

Definition getCluster : M Cluster := fun st => (st, inl (cluster st)).
Definition modifySpec (f : ClusterSpec -> ClusterSpec) : M unit :=
  fun st => (mkSt (withSpec f (cluster st)) (glog st), inl tt).
Definition glogf (l : LogLine) : M unit :=
  fun st => (mkSt (cluster st) (glog st ++ [l]), inl tt).

Declare Scope m_scope.
Notation "x <- m ;; k" := (bind m (fun x => k))
  (at level 61, m at next level, right associativity) : m_scope.
Notation "m ;; k" := (bind m (fun _ => k))
  (at level 61, right associativity) : m_scope.
Local Open Scope m_scope.

Section Model.
Context {E : Env}.

(** [ip[i] = v] *)
Fixpoint setByte (i : nat) (v : Z) (ip : net.IP) : net.IP :=
  match ip, i with
  | [], _ => []
  | _ :: rest, O => v :: rest
  | b :: rest, S k => b :: setByte k v rest
  end.

(** [for i := len(ip) - 1; i >= 0; i-- { ip[i]++; if ip[i] != 0
    { break } }], with [n = i + 1]; a byte wraps at 256. *)
Fixpoint incrementLoop (n : nat) (ip : net.IP) : net.IP :=
  match n with
  | O => ip
  | S i =>
      let ip := setByte i ((nth i ip 0 + 1) mod 256)%Z ip in
      if negb (nth i ip 0 =? 0)%Z then ip else incrementLoop i ip
  end.

(** [func incrementIP(ip net.IP, cidr string) (string, error)] *)
Definition incrementIP (ip : net.IP) (cidr : string) : string + error :=
  match net_ParseCIDR cidr with
  | inr err => inr err
  | inl (_, ipNet) =>
      let ip := incrementLoop (List.length ip) ip in
      if negb (IPNet_Contains ipNet ip) then
        inr (Errorf "overflowed CIDR while incrementing IP" [])
      else inl (IP_String ip)
  end.

(** The body of [for _, exclude := range []string{...}]. *)
Definition addExclude (excludes : string) (egressSlice : list string)
           (exclude : string) : list string :=
  if exclude =? EmptyString then egressSlice
  else if negb (strings.Contains excludes exclude)
       then egressSlice ++ [exclude]
       else egressSlice.

(** [func assignProxy(cluster *kops.Cluster) ( *kops.EgressProxySpec,
    error)].  [egressProxy] aliases [cluster.Spec.EgressProxy]: the
    assignment to [egressProxy.ProxyExcludes] is a write to the
    cluster. *)
Definition assignProxy : M (option EgressProxySpec) :=
  cluster <- getCluster ;;
  let egressProxy := EgressProxy (Spec cluster) in
  match egressProxy with
  | Some proxy =>
      let egressSlice :=
        if negb (ProxyExcludes proxy =? EmptyString)
        then strings.Split (ProxyExcludes proxy) ","
        else [] in
      ipnet <- tryOr (net_ParseCIDR (NonMasqueradeCIDR (Spec cluster)))
                     (Errorf "unable to parse Non Masquerade CIDR" []) ;;
      let ip := fst ipnet in
      firstIP <- tryOr
        (incrementIP ip (NonMasqueradeCIDR (Spec cluster)))
        (Errorf "unable to get first ip address in Non Masquerade CIDR"
                []) ;;
      let egressSlice :=
        fold_left (addExclude (ProxyExcludes proxy))
          [ "127.0.0.1";
            "localhost";
            ClusterDNSDomain (Spec cluster);
            MasterPublicName (Spec cluster);
            Name (ObjectMeta_ cluster);
            firstIP;
            NonMasqueradeCIDR (Spec cluster) ]
          egressSlice in
      let awsNoProxy := "169.254.169.254" in
      let egressSlice :=
        if (CloudProvider (Spec cluster) =? "aws")
           && negb (strings.Contains (ProxyExcludes proxy) awsNoProxy)
        then egressSlice ++ [awsNoProxy]
        else egressSlice in
      egressSlice <-
        (if negb (NetworkCIDR (Spec cluster) =? EmptyString) then
           ret (if negb (strings.Contains (ProxyExcludes proxy)
                                          (NetworkCIDR (Spec cluster)))
                then egressSlice ++ [NetworkCIDR (Spec cluster)]
                else egressSlice)
         else
           glogf (Warningf
             "No NetworkCIDR defined (yet), not adding to egressProxy.excludes"
             []) ;;
           ret egressSlice) ;;
      let proxy' := mkEgressProxySpec (strings.Join egressSlice ",") in
      modifySpec (setEgressProxy (Some proxy')) ;;
      glogf (Infof 8
               "Completed setting up Proxy excludes as follows: %q"
               [ArgStr (ProxyExcludes proxy')]) ;;
      ret (Some proxy')
  | None =>
      glogf (Infof 8 "Not setting up Proxy Excludes" []) ;;
      ret None
  end.

(** [func FindLatestKubernetesVersion() (string, error)] *)
Definition FindLatestKubernetesVersion : M string :=
  let stableURL :=
    "https://storage.googleapis.com/kubernetes-release/release/stable.txt"
  in
  glogf (Warningf "Loading latest kubernetes version from %q"
                  [ArgStr stableURL]) ;;
  match vfs_ReadFile stableURL with
  | inr err =>
      fail (Errorf
        "KubernetesVersion not specified, and unable to download latest version from %q: %v"
        [ArgStr stableURL; ArgErr err])
  | inl b =>
      let latestVersion := strings.TrimSpace b in
      ret latestVersion
  end.

(** [func ensureKubernetesVersion(c *kops.Cluster) error] *)
Definition ensureKubernetesVersion : M unit :=
  c <- getCluster ;;
  (if KubernetesVersion (Spec c) =? EmptyString then
     if negb (Channel (Spec c) =? EmptyString) then
       channel <- try (LoadChannel (Channel (Spec c))) ;;
       let kubernetesVersion :=
         RecommendedKubernetesVersion channel kopsversion_Version in
       match kubernetesVersion with
       | Some v =>
           modifySpec (setKubernetesVersion v) ;;
           glogf (Infof 0 "Using KubernetesVersion %q from channel %q"
                        [ArgStr v; ArgStr (Channel (Spec c))])
       | None =>
           glogf (Warningf
             "Cannot determine recommended kubernetes version from channel %q"
             [ArgStr (Channel (Spec c))])
       end
     else
       glogf (Warningf
         "Channel is not set; cannot determine KubernetesVersion from channel"
         [])
   else ret tt) ;;
  c <- getCluster ;;
  (if KubernetesVersion (Spec c) =? EmptyString then
     latestVersion <- FindLatestKubernetesVersion ;;
     glogf (Infof 0 "Using kubernetes latest stable version: %s"
                  [ArgStr latestVersion]) ;;
     modifySpec (setKubernetesVersion latestVersion)
   else ret tt) ;;
  ret tt.

(** Modelled from the spec: [assignCIDRsToSubnets], which is not in
    this file, assigns CIDRs to subnets: it rewrites [c.Spec.Subnets]
    or fails. *)
Definition assignCIDRsToSubnets : M unit :=
  c <- getCluster ;;
  subnets <- try (subnetsWithCIDRs c) ;;
  modifySpec (setSubnets subnets).

(** [func PerformAssignments(c *kops.Cluster) error] *)
Definition PerformAssignments : M unit :=
  c <- getCluster ;;
  cloud <- try (BuildCloud c) ;;
  (if SharedVPC c && (NetworkCIDR (Spec c) =? EmptyString) then
     vpcInfo <- try (FindVPCInfo cloud (NetworkID (Spec c))) ;;
     match vpcInfo with
     | None =>
         fail (Errorf "unable to find VPC ID %q"
                      [ArgStr (NetworkID (Spec c))])
     | Some vpcInfo =>
         modifySpec (setNetworkCIDR (CIDR vpcInfo)) ;;
         if CIDR vpcInfo =? EmptyString then
           fail (Errorf
             "Unable to infer NetworkCIDR from VPC ID, please specify --network-cidr"
             [])
         else ret tt
     end
   else ret tt) ;;
  (* Topology support *)
  c <- getCluster ;;
  (match Topology (Spec c) with
   | None =>
       modifySpec (setTopology
         (Some (mkTopologySpec TopologyPublic TopologyPublic)))
   | Some _ => ret tt
   end) ;;
  c <- getCluster ;;
  (if (NetworkCIDR (Spec c) =? EmptyString) && negb (SharedVPC c) then
     modifySpec (setNetworkCIDR "172.20.0.0/16")
   else ret tt) ;;
  c <- getCluster ;;
  (if NonMasqueradeCIDR (Spec c) =? EmptyString then
     modifySpec (setNonMasqueradeCIDR "100.64.0.0/10")
   else ret tt) ;;
  c <- getCluster ;;
  (if (MasterPublicName (Spec c) =? EmptyString)
      && negb (Name (ObjectMeta_ c) =? EmptyString) then
     modifySpec (setMasterPublicName ("api." ++ Name (ObjectMeta_ c)))
   else ret tt) ;;
  assignCIDRsToSubnets ;;
  (* c.Spec.EgressProxy, err = assignProxy(c) *)
  r <- results assignProxy ;;
  match r with
  | inr err => modifySpec (setEgressProxy None) ;; fail err
  | inl egressProxy =>
      modifySpec (setEgressProxy egressProxy) ;;
      ensureKubernetesVersion
  end.

End Model.

End cloudup.

(** ** The vocabulary for [assignProxy] *)

Module ProxySpec.
Import kops.

(** The values [assignProxy] may add to the excludes of a cluster, in
    the order it considers them: the seven of the basic list that are
    not empty, the AWS metadata address on AWS, the network CIDR when
    there is one. *)
Definition candidates (c : Cluster) (firstIP : string) : list string :=
  filter (fun exclude => negb (exclude =? EmptyString))
    [ "127.0.0.1";
      "localhost";
      ClusterDNSDomain (Spec c);
      MasterPublicName (Spec c);
      Name (ObjectMeta_ c);
      firstIP;
      NonMasqueradeCIDR (Spec c) ]
  ++ (if CloudProvider (Spec c) =? "aws" then ["169.254.169.254"] else [])
  ++ (if negb (NetworkCIDR (Spec c) =? EmptyString)
      then [NetworkCIDR (Spec c)] else []).

(** The excludes after [assignProxy]: the pieces of the old string,
    then the candidates that do not occur in the old string. *)
Definition excludesAfter (c : Cluster) (excludes firstIP : string)
  : string :=
  strings.Join
    ((if negb (excludes =? EmptyString)
      then strings.Split excludes "," else [])
     ++ filter (fun exclude => negb (strings.Contains excludes exclude))
               (candidates c firstIP))
    ",".

End ProxySpec.

(** ** The vocabulary for [PerformAssignments] *)

Module AssignmentSpec.
Import kops cloudup.

(** The five fields [PerformAssignments] fills in when they are
    empty. *)
Definition defaulted (c : Cluster)
  : string * string * string * option TopologySpec * string :=
  (NetworkCIDR (Spec c), NonMasqueradeCIDR (Spec c),
   MasterPublicName (Spec c), Topology (Spec c),
   KubernetesVersion (Spec c)).

Definition allSet (c : Cluster) : Prop :=
  NetworkCIDR (Spec c) <> EmptyString
  /\ NonMasqueradeCIDR (Spec c) <> EmptyString
  /\ MasterPublicName (Spec c) <> EmptyString
  /\ Topology (Spec c) <> None
  /\ KubernetesVersion (Spec c) <> EmptyString.

(** [m] leaves the five fields alone when all of them are set. *)
Definition preserves {A} (m : M A) : Prop :=
  forall st, allSet (cluster st) ->
             defaulted (cluster (fst (m st))) = defaulted (cluster st).

End AssignmentSpec.

(** ** Example collaborators

    Concrete instances of the two environments, used to run the model on
    concrete inputs. *)

Module Examples.
Import fi.

(** A file system: paths, each locked against removal or not. *)
Definition ExFS := list (string * bool).

Definition exRemoveAll (path : string) (files : ExFS)
  : ExFS * option error :=
  let under (f : string * bool) := String.prefix path (fst f) in
  let kept := filter (fun f => negb (under f) || snd f) files in
  if existsb (fun f => under f && snd f) files
  then (kept, Some (Errorf "unlinkat %s: permission denied" [ArgStr path]))
  else (kept, None).

(** Method sets: an AWS task with one renderer per backend, a task with
    two renderers that fit every target, a task whose renderer fails, a
    task whose renderer takes the target alone, a task whose renderer
    has no result, and tasks with no method. *)
Definition exMethodSet (t : GoType) : list Method :=
  if t =? "*awstasks.VPC" then
    [ mkMethod "CheckChanges" [t; t; t; t];
      mkMethod "Find" [t; "*fi.Context"];
      mkMethod "RenderAWS" [t; "*awsup.AWSAPITarget"; t; t; t];
      mkMethod "RenderTerraform" [t; "*terraform.TerraformTarget"; t; t; t];
      mkMethod "Run" [t; "*fi.Context"] ]
  else if t =? "*testtasks.Twice" then
    [ mkMethod "Render" [t; t; t; t];
      mkMethod "RenderWithContext" [t; "*fi.Context"; t; t; t] ]
  else if t =? "*testtasks.Failing" then
    [ mkMethod "RenderAWS" [t; "*fi.Context"; "*awsup.AWSAPITarget"; t; t; t] ]
  else if t =? "*testtasks.Terse" then
    [ mkMethod "RenderAWS" [t; "*awsup.AWSAPITarget"] ]
  else if t =? "*testtasks.Silent" then
    [ mkMethod "RenderAWS" [t; "*awsup.AWSAPITarget"; t; t; t] ]
  else [].

(** Method bodies: the renderer of the failing task returns an error,
    the one of the silent task returns nothing, the others record an
    API call and return a nil error. *)
Definition exCallMethod (recv : Task) (name : string) (args : list Value)
           (calls : list string) : list string * Ran :=
  if TypeOf recv =? "*testtasks.Failing" then
    (calls, Returned [ResultError (Errorf "quota exceeded" [])])
  else if TypeOf recv =? "*testtasks.Silent" then
    (calls ++ [(name ++ " " ++ TypeOf recv)%string], Returned [])
  else (calls ++ [(name ++ " " ++ TypeOf recv)%string], Returned [ResultNil]).

Fixpoint lookupField (name : string) (fields : list (string * string))
  : string :=
  match fields with
  | [] => EmptyString
  | (n, v) :: rest => if n =? name then v else lookupField name rest
  end.

(** A change-list builder: the fields of [e], in declaration order,
    whose value differs in [a]; it refuses a nil [changes]. *)
Definition exBuildChangeList (a e changes : Task) : list change + error :=
  if IsNil changes then
    inr (Errorf "unhandled change type: %v" [ArgStr (TypeOf changes)])
  else
    inl (flat_map
           (fun f =>
              let old := lookupField (fst f) (Fields a) in
              if old =? snd f then []
              else [mkChange (fst f) (" " ++ old ++ " -> " ++ snd f)%string])
           (Fields e)).

(** The part of a type name after its last dot. *)
Fixpoint afterLastDot (s : string) : string :=
  match s with
  | EmptyString => EmptyString
  | String c s' =>
      if strings.Contains s' "." then afterLastDot s'
      else if (c =? ".")%char then s'
      else s
  end.

#[export, refine] Instance exEnv : Env := {|
  FS := ExFS;
  Ext := list string;
  ConvertibleTo := String.eqb;
  methodSet := exMethodSet;
  methodSet_names := _;
  AssignableTo := String.eqb;
  callMethod := exCallMethod;
  buildChangeList := exBuildChangeList;
  getTaskName := fun t => afterLastDot (TypeOf t);
  os_RemoveAll := exRemoveAll
|}.
Proof.
  intro t. unfold exMethodSet.
  repeat match goal with
         | |- context [if ?b then _ else _] => destruct b
         end;
    repeat first
      [ apply NoDup_nil
      | apply NoDup_cons; [simpl; intuition discriminate|] ].
Defined.

Definition exWorld : World :=
  mkWorld EmptyString [] [("/tmp/deploy1/a", false); ("/etc/passwd", true)]
          [] [] [].

Definition vpc (isNil : bool) (lc : option Lifecycle)
           (fields : list (string * string)) : Task :=
  mkTask "*awstasks.VPC" isNil (Some lc) fields.

(** Sample tasks: an observed VPC named foo, none observed, the
    wanted VPC named bar under a policy, the delta, a nil delta. *)
Definition observed : Task := vpc false None [("Name", "foo")].
Definition wanted (lc : option Lifecycle) : Task :=
  vpc false lc [("Name", "bar")].
Definition delta : Task := vpc false None [("Name", "bar")].
Definition nilDelta : Task := vpc true None [].

(** A field name of seven bytes and five runes: [Gr], o with
    diaeresis (U+00F6), sharp s (U+00DF), [e]. *)
Definition groesse : string :=
  ("Gr" ++ String (ascii_of_nat 195) (String (ascii_of_nat 182)
             (String (ascii_of_nat 195) (String (ascii_of_nat 159) "e"))))
  %string.


Definition awsContext : Context :=
  mkContext "/tmp/deploy1" (BackendTarget "*awsup.AWSAPITarget") true [].

End Examples.

Module NetExamples.
Import net.

(** A decimal number, digit by digit. *)
Fixpoint parseDigits (s : string) (acc : Z) : option Z :=
  match s with
  | EmptyString => Some acc
  | String c s' =>
      let d := (Z.of_nat (nat_of_ascii c) - 48)%Z in
      if ((0 <=? d) && (d <=? 9))%Z then parseDigits s' (10 * acc + d)%Z
      else None
  end.

Definition parseDec (s : string) : option Z :=
  match s with
  | EmptyString => None
  | _ => parseDigits s 0%Z
  end.

Definition byteOk (z : Z) : bool := ((0 <=? z) && (z <=? 255))%Z.

(** Byte [i] of the mask with [n] leading ones. *)
Definition maskByte (n : Z) (i : Z) : Z :=
  let bits := Z.max 0 (Z.min 8 (n - 8 * i)) in
  (256 - 2 ^ (8 - bits))%Z.

Definition v4InV6Prefix : list Z :=
  [0; 0; 0; 0; 0; 0; 0; 0; 0; 0; 255; 255]%Z.

(** Dotted IPv4 networks only: the address in its 16-byte form, the
    network with a 4-byte address and mask. *)
Definition ipv4ParseCIDR (s : string) : (IP * IPNet) + error :=
  let bad := inr (Errorf "invalid CIDR address: %s" [ArgStr s]) in
  match strings.Split s "/" with
  | [addr; len] =>
      match map parseDec (strings.Split addr "."), parseDec len with
      | [Some a; Some b; Some c; Some d], Some n =>
          if byteOk a && byteOk b && byteOk c && byteOk d
             && ((0 <=? n) && (n <=? 32))%Z
          then
            let m := map (maskByte n) [0; 1; 2; 3]%Z in
            inl (v4InV6Prefix ++ [a; b; c; d],
                 mkIPNet (map (fun p => Z.land (fst p) (snd p))
                              (combine [a; b; c; d] m)) m)
          else bad
      | _, _ => bad
      end
  | _ => bad
  end.

(** [ip.To4()] *)
Definition To4 (ip : IP) : option IP :=
  if (List.length ip =? 4)%nat then Some ip
  else if (List.length ip =? 16)%nat
          && forallb (fun p => (fst p =? snd p)%Z)
                     (combine (firstn 12 ip) v4InV6Prefix)
       then Some (skipn 12 ip)
       else None.

Definition ipv4Contains (n : IPNet) (ip : IP) : bool :=
  let ip := match To4 ip with Some x => x | None => ip end in
  if negb (List.length ip =? List.length (NetIP n))%nat then false
  else forallb
         (fun t => (Z.land (fst (fst t)) (snd t)
                    =? Z.land (snd (fst t)) (snd t))%Z)
         (combine (combine (NetIP n) ip) (Mask n)).

Definition decimal (z : Z) : string :=
  DecimalString.NilZero.string_of_uint (N.to_uint (Z.to_N z)).

Definition ipv4String (ip : IP) : string :=
  match To4 ip with
  | Some x => String.concat "." (map decimal x)
  | None => "?"
  end.

End NetExamples.

Module CloudupExamples.
Import kops cloudup NetExamples.

#[export] Instance exEnv : Env := {|
  Cloud := string;
  ChannelT := string;
  TopologyPublic := "public";
  kopsversion_Version := "1.7.0";
  BuildCloud := fun c =>
    if (CloudProvider (Spec c) =? "aws") || (CloudProvider (Spec c) =? "gce")
    then inl (CloudProvider (Spec c))
    else inr (Errorf "unknown CloudProvider %q"
                     [ArgStr (CloudProvider (Spec c))]);
  SharedVPC := fun c => negb (NetworkID (Spec c) =? EmptyString);
  FindVPCInfo := fun _ id =>
    if id =? "vpc-12345" then inl (Some (mkVPCInfo "10.0.0.0/16"))
    else inl None;
  subnetsWithCIDRs := fun c => inl (Subnets (Spec c));
  LoadChannel := fun location =>
    if location =? "stable" then inl "1.7.2"
    else inr (Errorf "error reading channel %q" [ArgStr location]);
  RecommendedKubernetesVersion := fun channel _ => Some channel;
  vfs_ReadFile := fun _ => inl ("v1.7.3" ++ nl)%string;
  net_ParseCIDR := ipv4ParseCIDR;
  IPNet_Contains := ipv4Contains;
  IP_String := ipv4String
|}.

(** A cluster as a user writes it: a name, a cloud, a proxy. *)
Definition freshCluster : Cluster :=
  mkCluster (mkObjectMeta "k.example.com")
    (mkClusterSpec "stable" "aws" EmptyString EmptyString EmptyString None
       EmptyString EmptyString "cluster.local" []
       (Some (mkEgressProxySpec "localhost,10.1.2.3"))).

(** A cluster with the five defaulted fields already set. *)
Definition pinnedCluster : Cluster :=
  mkCluster (mkObjectMeta "k.example.com")
    (mkClusterSpec "stable" "aws" "1.6.0" "10.20.0.0/16" EmptyString
       (Some (mkTopologySpec "private" "private"))
       "100.96.0.0/11" "master.k.example.com" "cluster.local" []
       (Some (mkEgressProxySpec EmptyString))).

(** A cluster after defaulting, its proxy still as the user wrote
    it. *)
Definition proxiedCluster : Cluster :=
  mkCluster (mkObjectMeta "k.example.com")
    (mkClusterSpec "stable" "aws" "1.7.2" "172.20.0.0/16" EmptyString
       (Some (mkTopologySpec "public" "public"))
       "100.64.0.0/10" "api.k.example.com" "cluster.local" []
       (Some (mkEgressProxySpec "localhost,10.1.2.3"))).

End CloudupExamples.


(** ** The temporary directories of a [Context] *)

Module ContextDirs.
Import fi.

Section Dirs.
Context {E : Env}.

(** [ioutil.TempDir(dir, prefix)]: the file system with the new
    directory and its name, or an error. *)
Variable ioutil_TempDir : string -> string -> FS -> FS * (string + error).

Definition TempDir {R} (dir prefix : string) : Fn R (string + error) :=
  fun w =>
    let (fs', r) := ioutil_TempDir dir prefix (fs w) in
    (mkWorld (stderr w) (glog w) fs' (dryRunChanges w) (ext w) (invoked w),
     inl r).

Local Open Scope fn_scope.

(** [func NewContext(target Target, cloud Cloud, keystore Keystore,
    secretStore SecretStore, clusterConfigBase vfs.Path, checkExisting
    bool, tasks map[string]Task) ( *Context, error)], without the opaque
    handles. *)
Definition NewContext (target : Target) (checkExisting : bool)
           (tasks : list (string * Task)) (w : World)
  : World * (Context + error) :=
  run (
    let c := mkContext EmptyString target checkExisting tasks in
    t <- TempDir EmptyString "deploy" ;;
    match t with
    | inr err =>
        Return (inr (Errorf "error creating temporary directory: %v"
                            [ArgErr err]))
    | inl t =>
        let c := mkContext t (Target_ c) (CheckExisting c) (fi.tasks c) in
        Return (inl c)
    end) w.

(** [func (c *Context) NewTempDir(prefix string) (string, error)] *)
Definition NewTempDir (c : Context) (prefix : string) (w : World)
  : World * (string + error) :=
  run (
    t <- TempDir (Tmpdir c) prefix ;;
    match t with
    | inr err =>
        Return (inr (Errorf "error creating temporary directory: %v"
                            [ArgErr err]))
    | inl t => Return (inl t)
    end) w.

End Dirs.

End ContextDirs.

(** ** The vocabulary for the further properties of the defaulting code *)

Module DefaultingSpec.
Import kops cloudup.

(** The number a byte slice spells, most significant byte first. *)
Definition beValue (ip : net.IP) : Z :=
  fold_left (fun acc b => (acc * 256 + b)%Z) ip 0%Z.

Definition isByte (b : Z) : Prop := (0 <= b < 256)%Z.

(** The two errors of [assignProxy]. *)
Definition cannotParse : error :=
  Errorf "unable to parse Non Masquerade CIDR" [].
Definition noFirstIP : error :=
  Errorf "unable to get first ip address in Non Masquerade CIDR" [].

(** The location [FindLatestKubernetesVersion] reads. *)
Definition stableURL : string :=
  "https://storage.googleapis.com/kubernetes-release/release/stable.txt".

(** The first and the last rune of a text ([RuneError] for the empty
    text). *)
Definition firstRune (s : string) : N := fst (utf8.DecodeRuneInString s).
Definition lastRune (s : string) : N :=
  fst (utf8.DecodeLastRuneInString s).

(** The topology [PerformAssignments] gives a cluster that has none. *)
Definition publicTopology {E : Env} : TopologySpec :=
  mkTopologySpec TopologyPublic TopologyPublic.

(** The cluster after the four defaulting steps of
    [PerformAssignments] that follow the VPC lookup. *)
Definition withDefaults {E : Env} (c : Cluster) : Cluster :=
  let c :=
    match Topology (Spec c) with
    | None => withSpec (setTopology (Some publicTopology)) c
    | Some _ => c
    end in
  let c :=
    if (NetworkCIDR (Spec c) =? EmptyString) && negb (SharedVPC c)
    then withSpec (setNetworkCIDR "172.20.0.0/16") c else c in
  let c :=
    if NonMasqueradeCIDR (Spec c) =? EmptyString
    then withSpec (setNonMasqueradeCIDR "100.64.0.0/10") c else c in
  if (MasterPublicName (Spec c) =? EmptyString)
     && negb (Name (ObjectMeta_ c) =? EmptyString)
  then withSpec (setMasterPublicName ("api." ++ Name (ObjectMeta_ c))) c
  else c.

Local Open Scope m_scope.

(** The four defaulting steps of [PerformAssignments], followed by
    [k]. *)
Definition defaultsThen {E : Env} (k : M unit) : M unit :=
  c <- getCluster ;;
  (match Topology (Spec c) with
   | None =>
       modifySpec (setTopology
         (Some (mkTopologySpec TopologyPublic TopologyPublic)))
   | Some _ => ret tt
   end) ;;
  c <- getCluster ;;
  (if (NetworkCIDR (Spec c) =? EmptyString) && negb (SharedVPC c) then
     modifySpec (setNetworkCIDR "172.20.0.0/16")
   else ret tt) ;;
  c <- getCluster ;;
  (if NonMasqueradeCIDR (Spec c) =? EmptyString then
     modifySpec (setNonMasqueradeCIDR "100.64.0.0/10")
   else ret tt) ;;
  c <- getCluster ;;
  (if (MasterPublicName (Spec c) =? EmptyString)
      && negb (Name (ObjectMeta_ c) =? EmptyString) then
     modifySpec (setMasterPublicName ("api." ++ Name (ObjectMeta_ c)))
   else ret tt) ;;
  k.

(** [m] never changes what [f] reads off the cluster. *)
Definition untouched {X A} (f : Cluster -> X) (m : M A) : Prop :=
  forall st, f (cluster (fst (m st))) = f (cluster st).

(** [PerformAssignments] from the call of [assignCIDRsToSubnets] on. *)
Definition assignmentsTail {E : Env} : M unit :=
  assignCIDRsToSubnets ;;
  r <- results assignProxy ;;
  match r with
  | inr err => modifySpec (setEgressProxy None) ;; fail err
  | inl egressProxy =>
      modifySpec (setEgressProxy egressProxy) ;;
      ensureKubernetesVersion
  end.

End DefaultingSpec.

(** ** Further example data *)

Module FurtherExamples.
Import fi kops Examples NetExamples CloudupExamples.

(** A [TempDir] that appends a fixed suffix to the prefix, under [dir]
    or under [/tmp]; it fails for the prefix [full]. *)
Definition exTempDir (dir prefix : string) (files : ExFS)
  : ExFS * (string + error) :=
  if prefix =? "full" then
    (files, inr (Errorf "mkdir %s: no space left on device" [ArgStr dir]))
  else
    let name :=
      ((if dir =? EmptyString then "/tmp" else dir) ++ "/" ++ prefix
       ++ "042")%string in
    (files ++ [(name, false)], inl name).

Definition withNonMasqueradeCIDR (v : string) (c : Cluster) : Cluster :=
  withSpec (setNonMasqueradeCIDR v) c.

(** The proxied cluster with a non-masquerade CIDR that is no CIDR, and
    with one whose base address is the last address there is. *)
Definition brokenCluster : Cluster :=
  withNonMasqueradeCIDR "not-a-cidr" proxiedCluster.
Definition lastAddressCluster : Cluster :=
  withNonMasqueradeCIDR "255.255.255.255/32" proxiedCluster.

(** A cluster in a shared VPC, known to the cloud or not, without a
    network CIDR. *)
Definition sharedCluster (vpc : string) : Cluster :=
  mkCluster (mkObjectMeta "k.example.com")
    (mkClusterSpec "stable" "aws" EmptyString EmptyString vpc None
       EmptyString EmptyString "cluster.local" [] None).

(** A cluster on a cloud that cannot be built. *)
Definition unknownCloudCluster : Cluster :=
  mkCluster (mkObjectMeta "k.example.com")
    (mkClusterSpec "stable" "vapor" EmptyString EmptyString EmptyString None
       EmptyString EmptyString "cluster.local" [] None).

(** A cluster without a version and without a channel. *)
Definition channellessCluster : Cluster :=
  mkCluster (mkObjectMeta "k.example.com")
    (mkClusterSpec EmptyString "aws" EmptyString EmptyString EmptyString None
       EmptyString EmptyString "cluster.local" [] None).

(** White space beyond ASCII, in UTF-8: the no-break space U+00A0 and
    the ideographic space U+3000. *)
Definition nbsp : string :=
  String (ascii_of_nat 194) (String (ascii_of_nat 160) EmptyString).
Definition ideographicSpace : string :=
  String (ascii_of_nat 227)
    (String (ascii_of_nat 128) (String (ascii_of_nat 128) EmptyString)).

(** The example environment with the given text at the stable
    location. *)
Definition withStableText (text : string) : cloudup.Env := {|
  cloudup.Cloud := string;
  cloudup.ChannelT := string;
  cloudup.TopologyPublic := "public";
  cloudup.kopsversion_Version := "1.7.0";
  cloudup.BuildCloud := @cloudup.BuildCloud CloudupExamples.exEnv;
  cloudup.SharedVPC := @cloudup.SharedVPC CloudupExamples.exEnv;
  cloudup.FindVPCInfo := @cloudup.FindVPCInfo CloudupExamples.exEnv;
  cloudup.subnetsWithCIDRs := @cloudup.subnetsWithCIDRs CloudupExamples.exEnv;
  cloudup.LoadChannel := @cloudup.LoadChannel CloudupExamples.exEnv;
  cloudup.RecommendedKubernetesVersion := fun channel _ => Some channel;
  cloudup.vfs_ReadFile := fun _ => inl text;
  cloudup.net_ParseCIDR := ipv4ParseCIDR;
  cloudup.IPNet_Contains := ipv4Contains;
  cloudup.IP_String := ipv4String
|}.

(** A blank text at the stable location, and a version between white
    space. *)
Definition blankEnv : cloudup.Env :=
  withStableText (" " ++ nbsp ++ nl)%string.
Definition paddedEnv : cloudup.Env :=
  withStableText (nbsp ++ " v1.7.0" ++ ideographicSpace ++ nl)%string.

(** The two example environments, by what they serve. *)
Definition cloudEnv : cloudup.Env := CloudupExamples.exEnv.
Definition renderEnv : fi.Env := Examples.exEnv.

End FurtherExamples.

(* ================================================================== *)
(** * Part II: properties                                               *)
(* ================================================================== *)

(** ** Facts about the [strings] model *)

Section StringFacts.
Import strings.

Lemma append_nil_r (s : string) : (s ++ EmptyString)%string = s.
Proof. induction s as [|c s IH]; simpl; [reflexivity | now rewrite IH]. Qed.

Lemma append_assoc (a b c : string) :
  ((a ++ b) ++ c)%string = (a ++ (b ++ c))%string.
Proof. induction a as [|x a IH]; simpl; [reflexivity | now rewrite IH]. Qed.

Lemma length_append (a b : string) :
  String.length (a ++ b) = String.length a + String.length b.
Proof. induction a as [|x a IH]; simpl; [reflexivity | now rewrite IH]. Qed.

Lemma prefix_iff (p s : string) :
  String.prefix p s = true <-> exists r, s = (p ++ r)%string.
Proof.
  revert s; induction p as [|c p IH]; intros s.
  - destruct s; simpl; (split; [intros _; eexists; reflexivity | reflexivity]).
  - destruct s as [|d s]; simpl.
    + split; [discriminate | intros [r Hr]; discriminate].
    + destruct (Ascii.ascii_dec c d) as [->|Hne].
      * rewrite IH. split; intros [r Hr]; exists r.
        -- now rewrite Hr.
        -- now inversion Hr.
      * split; [discriminate | intros [r Hr]; inversion Hr; congruence].
Qed.

Lemma prefix_append (p r : string) : String.prefix p (p ++ r) = true.
Proof. apply prefix_iff. now exists r. Qed.

Lemma Contains_nil (sub : string) :
  Contains EmptyString sub = String.prefix sub EmptyString || false.
Proof. reflexivity. Qed.

Lemma Contains_cons (c : ascii) (s sub : string) :
  Contains (String c s) sub
  = String.prefix sub (String c s) || Contains s sub.
Proof. reflexivity. Qed.

(** [Contains] finds exactly the substrings. *)
Lemma Contains_iff (s sub : string) :
  Contains s sub = true <-> exists a b, s = (a ++ sub ++ b)%string.
Proof.
  induction s as [|c s IH].
  - rewrite Contains_nil, orb_false_r, prefix_iff. split.
    + intros [r Hr]. now exists EmptyString, r.
    + intros [a [b H]]. destruct a; [now exists b | discriminate].
  - rewrite Contains_cons, orb_true_iff, prefix_iff, IH. split.
    + intros [[r Hr] | [a [b H]]].
      * now exists EmptyString, r.
      * exists (String c a), b. simpl. now rewrite H.
    + intros [a [b H]]. destruct a as [|x a].
      * left. now exists b.
      * right. inversion H. now exists a, b.
Qed.

Lemma Contains_empty (x : string) :
  Contains EmptyString x = true -> x = EmptyString.
Proof.
  rewrite Contains_iff. intros [a [b H]].
  destruct a; [destruct x; [reflexivity | discriminate] | discriminate].
Qed.

(** What is contained stays contained when text is added on either
    side. *)
Lemma Contains_extend (l s r x : string) :
  Contains s x = true -> Contains (l ++ s ++ r) x = true.
Proof.
  rewrite !Contains_iff. intros [a [b ->]].
  exists (l ++ a)%string, (b ++ r)%string.
  now rewrite !append_assoc.
Qed.

Lemma Contains_self (x : string) : Contains x x = true.
Proof.
  apply Contains_iff. exists EmptyString, EmptyString.
  simpl. now rewrite append_nil_r.
Qed.

(** An element of a joined list occurs in the joined string. *)
Lemma Contains_Join (elems : list string) (sep x : string) :
  In x elems -> Contains (Join elems sep) x = true.
Proof.
  unfold Join. induction elems as [|y ys IH]; intros Hin; [destruct Hin|].
  destruct ys as [|z zs].
  - destruct Hin as [->|[]]. simpl. apply Contains_self.
  - change (String.concat sep (y :: z :: zs))
      with (y ++ sep ++ String.concat sep (z :: zs))%string.
    destruct Hin as [->|Hin].
    + apply (Contains_extend EmptyString x
               (sep ++ String.concat sep (z :: zs))), Contains_self.
    + specialize (IH Hin).
      replace (y ++ sep ++ String.concat sep (z :: zs))%string
        with ((y ++ sep) ++ String.concat sep (z :: zs) ++ EmptyString)%string
        by now rewrite append_nil_r, append_assoc.
      now apply Contains_extend.
Qed.

Lemma Join_app (l1 l2 : list string) (sep : string) :
  l1 <> [] -> l2 <> [] ->
  Join (l1 ++ l2) sep = (Join l1 sep ++ sep ++ Join l2 sep)%string.
Proof.
  unfold Join. intros H1 H2.
  induction l1 as [|x xs IH]; [contradiction|].
  destruct xs as [|y ys].
  - simpl. destruct l2; [contradiction | reflexivity].
  - change (String.concat sep ((x :: y :: ys) ++ l2))
      with (x ++ sep ++ String.concat sep ((y :: ys) ++ l2))%string.
    rewrite IH by discriminate.
    change (String.concat sep (x :: y :: ys))
      with (x ++ sep ++ String.concat sep (y :: ys))%string.
    now rewrite !append_assoc.
Qed.

Lemma splitFrom_cons (sep cur : string) (c : ascii) (s : string) :
  splitFrom sep 0 cur (String c s)
  = if String.prefix sep (String c s)
    then cur :: splitFrom sep (String.length sep - 1) EmptyString s
    else splitFrom sep 0 (cur ++ String c EmptyString) s.
Proof. reflexivity. Qed.

Lemma splitFrom_nonempty (sep : string) (skip : nat) (cur s : string) :
  splitFrom sep skip cur s <> [].
Proof.
  revert skip cur; induction s as [|c s IH]; intros skip cur.
  - discriminate.
  - destruct skip; [|apply IH].
    rewrite splitFrom_cons.
    destruct (String.prefix sep (String c s)); [discriminate | apply IH].
Qed.

(** Stepping over the rest of a separator. *)
Lemma splitFrom_skip (sep x rest cur : string) :
  splitFrom sep (String.length x) cur (x ++ rest)
  = splitFrom sep 0 cur rest.
Proof.
  induction x as [|c x IH]; simpl; [|exact IH].
  destruct rest; reflexivity.
Qed.

Lemma concat_cons_nonempty (sep x : string) (l : list string) :
  l <> [] ->
  String.concat sep (x :: l) = (x ++ sep ++ String.concat sep l)%string.
Proof. destruct l; [contradiction | reflexivity]. Qed.

Lemma Join_splitFrom (sep : string) (n : nat) :
  sep <> EmptyString ->
  forall s cur, String.length s <= n ->
    Join (splitFrom sep 0 cur s) sep = (cur ++ s)%string.
Proof.
  intros Hsep. unfold Join.
  induction n as [|n IH]; intros s cur Hlen.
  - destruct s; [simpl; now rewrite append_nil_r | simpl in Hlen; lia].
  - destruct s as [|c s]; [simpl; now rewrite append_nil_r|].
    simpl in Hlen.
    rewrite splitFrom_cons.
    destruct (String.prefix sep (String c s)) eqn:Hp.
    + apply prefix_iff in Hp. destruct Hp as [r Hr].
      destruct sep as [|d sep']; [contradiction|].
      simpl in Hr. inversion Hr; subst.
      replace (String.length (String d sep') - 1) with (String.length sep')
        by (simpl; lia).
      rewrite splitFrom_skip.
      rewrite concat_cons_nonempty by apply splitFrom_nonempty.
      rewrite IH by (rewrite length_append in Hlen; lia).
      reflexivity.
    + rewrite IH by lia. now rewrite append_assoc.
Qed.

(** Splitting and joining again on the same separator gives the string
    back. *)
Lemma Join_Split (s sep : string) :
  sep <> EmptyString -> Join (Split s sep) sep = s.
Proof.
  intros Hsep. unfold Split.
  now rewrite (Join_splitFrom (n := String.length s) Hsep).
Qed.

Lemma Split_nonempty (s sep : string) : Split s sep <> [].
Proof. apply splitFrom_nonempty. Qed.

Lemma splitFrom_single (sep : string) :
  sep <> EmptyString ->
  forall s cur,
    (List.length (splitFrom sep 0 cur s) =? 1)%nat = negb (Contains s sep).
Proof.
  intros Hsep. induction s as [|c s IH]; intros cur.
  - simpl. destruct sep; [contradiction | reflexivity].
  - rewrite splitFrom_cons, Contains_cons.
    destruct (String.prefix sep (String c s)).
    + pose proof (splitFrom_nonempty sep (String.length sep - 1)
                                     EmptyString s) as Hne.
      destruct (splitFrom sep (String.length sep - 1) EmptyString s);
        [contradiction | reflexivity].
    + rewrite orb_false_l. apply IH.
Qed.

(** [len(strings.Split(s, sep)) == 1] exactly when [sep] does not occur
    in [s]. *)
Lemma Split_single (s sep : string) :
  sep <> EmptyString ->
  (List.length (Split s sep) =? 1)%nat = negb (Contains s sep).
Proof. intros Hsep. now apply splitFrom_single. Qed.

End StringFacts.

(** ** [Context.Render]: resolution of the renderer *)

Section Resolution.
Import fi RenderSpec.
Context {E : Env}.

(** The inner loop accepts a parameter list exactly when every
    parameter is acceptable, and then has collected the resolved
    arguments. *)
Lemma matchArgs_resolved (c : Context) (vType : GoType)
      (ins : list GoType) (args : list Value) :
  matchArgs c vType (typeOfTarget (Target_ c)) ins args
  = if forallb (acceptable vType (typeOfTarget (Target_ c))) ins
    then Some (args ++ resolved c vType ins)
    else None.
Proof.
  revert args. induction ins as [|arg ins IH]; intros args.
  - simpl. now rewrite app_nil_r.
  - unfold resolved in *. simpl. unfold acceptable at 1.
    destruct (ConvertibleTo arg vType); simpl.
    + apply IH.
    + destruct (ConvertibleTo arg typeContextPtr); simpl.
      * rewrite IH. destruct (forallb _ ins); [|reflexivity].
        now rewrite <- app_assoc.
      * destruct (ConvertibleTo arg (typeOfTarget (Target_ c))); simpl.
        -- rewrite IH. destruct (forallb _ ins); [|reflexivity].
           now rewrite <- app_assoc.
        -- reflexivity.
Qed.

(** The outer loop in terms of the matching methods still ahead: it
    touches nothing; with none ahead it keeps the renderer it has; with
    one ahead and none in hand it takes it; in every other case it
    returns the ambiguity error. *)
Lemma findRenderer_matching (c : Context) (vType : GoType)
      (methods : list Method) (renderer : option (Method * list Value))
      (w : World) :
  findRenderer c vType (typeOfTarget (Target_ c)) methods renderer w
  = match filter (matching vType (typeOfTarget (Target_ c))) methods,
          renderer with
    | [], _ => (w, inl renderer)
    | [m], None => (w, inl (Some (m, resolved c vType (TypeIn m))))
    | _, _ => (w, inr (Returns (Some (multipleRenderers vType))))
    end.
Proof.
  revert renderer. induction methods as [|m ms IH]; intros renderer.
  - reflexivity.
  - simpl findRenderer. simpl filter. unfold matching at 1.
    destruct (strings.HasPrefix (Name m) "Render"); cbn [negb andb].
    + rewrite matchArgs_resolved.
      destruct (forallb _ (TypeIn m)).
      * destruct renderer as [r|].
        -- unfold Return.
           destruct (filter _ ms) as [|m' ms']; reflexivity.
        -- rewrite IH. simpl app.
           destruct (filter _ ms) as [|m' [|m'' ms']]; reflexivity.
      * rewrite IH.
        destruct (filter _ ms) as [|m' [|m'' ms']]; reflexivity.
    + rewrite IH.
      destruct (filter _ ms) as [|m' [|m'' ms']]; reflexivity.
Qed.

(** Without a short circuit in the lifecycle block, [Render] is the
    rest of its body. *)
Lemma Render_no_short_circuit (c : Context) (a e changes : Task)
      (w : World) :
  lifecycleOf e <> Some LifecycleExistsAndValidates ->
  lifecycleOf e <> Some LifecycleExistsAndWarnIfChanges ->
  Render c a e changes w = run (renderToTarget c a e changes) w.
Proof.
  intros Hv Hw. unfold Render, run, bind, lifecycleBlock.
  destruct (lifecycleOf e) as [[| | |name]|];
    try congruence; destruct (IsNil a); reflexivity.
Qed.

(** A method of the method set is the one [MethodByName] finds under
    its name. *)
Lemma MethodByName_member (vType : GoType) (m : Method) :
  In m (methodSet vType) -> MethodByName vType (Name m) = Some m.
Proof.
  unfold MethodByName. pose proof (methodSet_names vType) as Hnd.
  induction (methodSet vType) as [|m' ms IH]; intros Hin; [contradiction|].
  simpl in Hnd. inversion Hnd as [|x l Hnotin Hnd']; subst.
  simpl. destruct Hin as [Heq|Hin].
  - subst m'. now rewrite String.eqb_refl.
  - destruct (String.eqb_spec (Name m') (Name m)) as [Heq|_].
    + exfalso. apply Hnotin. rewrite Heq. now apply in_map.
    + now apply IH.
Qed.

(** The method found under a name bears that name. *)
Lemma MethodByName_name (vType : GoType) (name : string) (m : Method) :
  MethodByName vType name = Some m -> Name m = name.
Proof.
  unfold MethodByName. intros H. apply find_some in H.
  destruct H as [_ H]. now apply String.eqb_eq.
Qed.

(** The dispatch, by the number of matching methods. *)
Lemma dispatch_matching (c : Context) (a e changes : Task) (w : World) :
  run (dispatch c a e changes) w
  = match filter (matching (TypeOf e) (typeOfTarget (Target_ c)))
                 (methodSet (TypeOf e)) with
    | [] =>
        (w, Returns (Some (noRenderer (TypeOf e)
                                      (typeOfTarget (Target_ c)))))
    | [m] => called e m (callArgs c a e changes m) w
    | _ => (w, Returns (Some (multipleRenderers (TypeOf e))))
    end.
Proof.
  unfold run, dispatch, bind. rewrite findRenderer_matching.
  destruct (filter _ (methodSet (TypeOf e))) as [|m [|m' ms]] eqn:Hf;
    try reflexivity.
  assert (In m (methodSet (TypeOf e))) as Hin.
  { assert (In m (filter (matching (TypeOf e) (typeOfTarget (Target_ c)))
                         (methodSet (TypeOf e)))) as H
      by (rewrite Hf; now left).
    apply filter_In in H. tauto. }
  unfold glogf, Call, Return, called, callArgs, announced. simpl.
  rewrite MethodByName_member by assumption.
  rewrite <- !app_assoc. simpl.
  destruct (checkCall _ (tl (TypeIn m))); [reflexivity|].
  destruct (callMethod e (Name m) _ (ext w)) as [ext' [[|[|err|] rv]|]];
    reflexivity.
Qed.

End Resolution.

(** ** [Context.Render]: the claims *)

Section RenderClaims.
Import fi RenderSpec.
Context {E : Env}.



(** C3, as amended. Under ExistsAndWarnIfChanges with a present
    actual: when the change list is built, [Render] writes the report
    for it to the standard error stream and returns success, with no
    method invoked and nothing else changed; when building the change
    list fails, [Render] returns that error and writes nothing. *)
Theorem Render_warn_if_changes
        (c : Context) (a e changes : Task) (w : World) :
  lifecycleOf e = Some LifecycleExistsAndWarnIfChanges ->
  IsNil a = false ->
  (forall changeList,
      buildChangeList a e changes = inl changeList ->
      Render c a e changes w = (reported e changeList w, Returns None)
      /\ invoked (fst (Render c a e changes w)) = invoked w
      /\ ext (fst (Render c a e changes w)) = ext w
      /\ dryRunChanges (fst (Render c a e changes w)) = dryRunChanges w)
  /\ (forall err,
         buildChangeList a e changes = inr err ->
         Render c a e changes w = (w, Returns (Some err))).
Proof.
  intros Hl Hnil. split.
  - intros changeList Hb.
    assert (Render c a e changes w
            = (reported e changeList w, Returns None)) as H.
    { unfold Render, run, bind, lifecycleBlock.
      rewrite Hl, Hnil, Hb. reflexivity. }
    rewrite H. repeat split.
  - intros err Hb. unfold Render, run, bind, lifecycleBlock.
    rewrite Hl, Hnil, Hb. reflexivity.
Qed.


(** C5, as amended. Under ExistsAndValidates with a present actual:
    when the change list is built, be it empty or not, [Render] writes
    the report and fails with the LifecycleViolation saying the object
    did not match; when building the change list fails, [Render]
    returns that error. *)
Theorem Render_exists_and_validates
        (c : Context) (a e changes : Task) (w : World) :
  lifecycleOf e = Some LifecycleExistsAndValidates ->
  IsNil a = false ->
  (forall changeList,
      buildChangeList a e changes = inl changeList ->
      exists err,
        Render c a e changes w
        = (reported e changeList w, Returns (Some err))
        /\ err = Errorf
             "Lifecycle set to ExistsAndValidates, but object did not match"
             []
        /\ LifecycleViolation err = true)
  /\ (forall err,
         buildChangeList a e changes = inr err ->
         Render c a e changes w = (w, Returns (Some err))).
Proof.
  intros Hl Hnil. split.
  - intros changeList Hb. eexists.
    unfold Render, run, bind, lifecycleBlock.
    rewrite Hl, Hnil, Hb. simpl. repeat split.
  - intros err Hb. unfold Render, run, bind, lifecycleBlock.
    rewrite Hl, Hnil, Hb. reflexivity.
Qed.


End RenderClaims.

(** ** The lifecycle report *)

Section Report.
Import fi RenderSpec.

Lemma nl_nonempty : nl <> EmptyString.
Proof. discriminate. Qed.

(** A loop of [Fprintf] calls appends the texts in order. *)
Lemma fold_left_Fprintf {A} (text : A -> string) (l : list A) (b : string) :
  fold_left (fun b x => Fprintf b (text x)) l b
  = (b ++ String.concat EmptyString (map text l))%string.
Proof.
  revert b. induction l as [|x l IH]; intros b; simpl.
  - now rewrite append_nil_r.
  - rewrite IH. unfold Fprintf. rewrite append_assoc.
    destruct l; simpl; [now rewrite append_nil_r | reflexivity].
Qed.

Lemma concat_empty_cons (x : string) (l : list string) :
  String.concat EmptyString (x :: l)
  = (x ++ String.concat EmptyString l)%string.
Proof. destruct l; simpl; [now rewrite append_nil_r | reflexivity]. Qed.

(** One turn of the loop over the change list appends the lines of
    that change. *)
Lemma writeChange_changeLines (b : string) (ch : change) :
  writeChange b ch = (b ++ changeLines ch)%string.
Proof.
  unfold writeChange, changeLines.
  rewrite (Split_single (Description ch) nl_nonempty).
  destruct (strings.Contains (Description ch) nl); simpl negb; cbv iota.
  - rewrite fold_left_Fprintf. unfold Fprintf.
    rewrite !append_assoc. reflexivity.
  - reflexivity.
Qed.

Lemma fold_left_writeChange (changeList : list change) (b : string) :
  fold_left writeChange changeList b
  = (b ++ String.concat EmptyString (map changeLines changeList))%string.
Proof.
  revert b. induction changeList as [|ch l IH]; intros b.
  - simpl. now rewrite append_nil_r.
  - simpl fold_left. rewrite IH, writeChange_changeLines.
    simpl map. rewrite concat_empty_cons. now rewrite append_assoc.
Qed.

(** The report, laid out: the banner line, the line with the task
    name, the lines of each change, an empty line. *)
Lemma lifecycleReport_layout (taskName : string) (changeList : list change) :
  lifecycleReport taskName changeList
  = (reportBanner ++ nl
     ++ "  " ++ taskName ++ "/?" ++ nl
     ++ String.concat EmptyString (map changeLines changeList)
     ++ nl)%string.
Proof.
  unfold lifecycleReport, Fprintf.
  rewrite fold_left_writeChange.
  rewrite !append_assoc. reflexivity.
Qed.

Lemma dropString_append (h t : string) :
  dropString (String.length h) (h ++ t) = t.
Proof. induction h as [|c h IH]; simpl; [destruct t; reflexivity | exact IH]. Qed.

(** The tail of a string is what is left after the head. *)
Lemma append_tail (s h t : string) :
  s = (h ++ t)%string ->
  t = dropString (String.length s - String.length t) s.
Proof.
  intros ->. rewrite length_append.
  replace (String.length h + String.length t - String.length t)
    with (String.length h) by lia.
  now rewrite dropString_append.
Qed.

End Report.

Section ReportClaim.
Import fi RenderSpec.
Context {E : Env}.

(** C7, as amended. Under either existence policy, with a present
    actual and a change list that was built, what [Render] appends to
    the standard error stream is exactly: the banner line, the line
    holding two spaces, the task name and [/?], then for each change
    the field name padded with spaces to 20 columns, counted in runes
    as [fmt] counts them, after two spaces and a tab,
    followed on the same line by a tab and the description when the
    description has no line break, and otherwise by one line per line
    of the description under an empty 20-column field, and at the end
    an empty line. *)
Theorem Render_report_layout
        (c : Context) (a e changes : Task) (w : World)
        (changeList : list change) :
  lifecycleOf e = Some LifecycleExistsAndValidates
  \/ lifecycleOf e = Some LifecycleExistsAndWarnIfChanges ->
  IsNil a = false ->
  buildChangeList a e changes = inl changeList ->
  stderr (fst (Render c a e changes w))
  = (stderr w
     ++ reportBanner ++ nl
     ++ "  " ++ getTaskName e ++ "/?" ++ nl
     ++ String.concat EmptyString (map changeLines changeList)
     ++ nl)%string.
Proof.
  intros Hl Hnil Hb. rewrite <- lifecycleReport_layout.
  unfold Render, run, bind, lifecycleBlock.
  destruct Hl as [Hl|Hl]; rewrite Hl, Hnil, Hb; reflexivity.
Qed.

(** C8. [Close] logs, and for a non-empty [Tmpdir] calls
    [os.RemoveAll] on it: the file system is the one that call leaves,
    a failure adds a warning to the log, and [Close] has no result to
    carry an error in; nothing else changes. *)
Theorem Close_best_effort (c : Context) (w : World) :
  Tmpdir c <> EmptyString ->
  let removal := os_RemoveAll (Tmpdir c) (fs w) in
  Close c w
  = mkWorld (stderr w)
      (glog w
       ++ [Infof 2 "deleting temp dir: %q" [ArgStr (Tmpdir c)]]
       ++ match snd removal with
          | Some err =>
              [Warningf "unable to delete temporary directory %q: %v"
                        [ArgStr (Tmpdir c); ArgErr err]]
          | None => []
          end)
      (fst removal) (dryRunChanges w) (ext w) (invoked w).
Proof.
  intros Hne removal. subst removal.
  unfold Close, run, bind, glogf, RemoveAll.
  apply String.eqb_neq in Hne. rewrite Hne. simpl.
  destruct (os_RemoveAll (Tmpdir c) (fs w)) as [fs' [err|]]; simpl.
  - now rewrite <- app_assoc.
  - reflexivity.
Qed.

End ReportClaim.

(** ** [Context.Render] and [Context.Close] on the sample tasks *)

Section RenderExamples.
Import fi RenderSpec Examples.




(** C3, the claim as stated fails: under ExistsAndWarnIfChanges with a
    present actual, a change list that cannot be built makes [Render]
    return the builder's error, with nothing written. *)
Lemma Render_warn_change_list_failure :
  lifecycleOf (wanted (Some LifecycleExistsAndWarnIfChanges))
  = Some LifecycleExistsAndWarnIfChanges
  /\ IsNil observed = false
  /\ Render awsContext observed
            (wanted (Some LifecycleExistsAndWarnIfChanges)) nilDelta exWorld
     = (exWorld,
        Returns (Some (Errorf "unhandled change type: %v"
                              [ArgStr "*awstasks.VPC"]))).
Proof. repeat split. Qed.

(** The name differs: the report is written and [Render] succeeds. *)
Lemma Render_warn_if_changes_witness :
  buildChangeList observed (wanted (Some LifecycleExistsAndWarnIfChanges))
                  delta
  = inl [mkChange "Name" " foo -> bar"]
  /\ Render awsContext observed
            (wanted (Some LifecycleExistsAndWarnIfChanges)) delta exWorld
     = (reported (wanted (Some LifecycleExistsAndWarnIfChanges))
                 [mkChange "Name" " foo -> bar"] exWorld, Returns None).
Proof.
  split; [reflexivity|].
  refine (proj1 (proj1
    (@Render_warn_if_changes exEnv awsContext observed
       (wanted (Some LifecycleExistsAndWarnIfChanges)) delta exWorld _ _)
    _ _)); reflexivity.
Defined.


(** C5, the claim as stated fails: the wanted VPC is found as wanted,
    the change list is empty, and [Render] still fails with the
    LifecycleViolation saying the object did not match. *)
Lemma Render_validates_empty_change_list :
  lifecycleOf (wanted (Some LifecycleExistsAndValidates))
  = Some LifecycleExistsAndValidates
  /\ IsNil delta = false
  /\ buildChangeList delta (wanted (Some LifecycleExistsAndValidates)) delta
     = inl []
  /\ snd (Render awsContext delta
                 (wanted (Some LifecycleExistsAndValidates)) delta exWorld)
     = Returns (Some (Errorf
         "Lifecycle set to ExistsAndValidates, but object did not match" []))
  /\ LifecycleViolation
       (Errorf
          "Lifecycle set to ExistsAndValidates, but object did not match"
          [])
     = true.
Proof. repeat split. Qed.

Lemma Render_exists_and_validates_witness :
  exists err,
    Render awsContext observed (wanted (Some LifecycleExistsAndValidates))
           delta exWorld
    = (reported (wanted (Some LifecycleExistsAndValidates))
                [mkChange "Name" " foo -> bar"] exWorld,
       Returns (Some err))
    /\ err = Errorf
         "Lifecycle set to ExistsAndValidates, but object did not match" []
    /\ LifecycleViolation err = true.
Proof.
  refine (proj1
    (@Render_exists_and_validates exEnv awsContext observed
       (wanted (Some LifecycleExistsAndValidates)) delta exWorld _ _)
    _ _); reflexivity.
Defined.



(** C7, the claim as stated fails: the report for one changed field is
    the text below, with a banner line before the line of the task name
    and the field name padded to 20 columns, and it is not a header
    line followed by the field line of the specification and an empty
    line, whatever the header. *)
Lemma lifecycleReport_not_spec_layout :
  lifecycleReport "VPC" [mkChange "Name" " foo -> bar"]
  = ("Object from different phase did not match, problems possible:" ++ nl
     ++ "  VPC/?" ++ nl
     ++ "  " ++ tab ++ "Name                " ++ tab ++ " foo -> bar" ++ nl
     ++ nl)%string
  /\ forall header indent,
       lifecycleReport "VPC" [mkChange "Name" " foo -> bar"]
       <> specReport header indent [mkChange "Name" " foo -> bar"].
Proof.
  split; [reflexivity|].
  intros header indent H.
  assert (specReport header indent [mkChange "Name" " foo -> bar"]
          = (header
             ++ (nl ++ ("  " ++ tab ++ "Name" ++ tab ++ " foo -> bar" ++ nl)
                 ++ nl))%string) as Hs by reflexivity.
  rewrite Hs in H. apply append_tail in H.
  vm_compute in H. discriminate H.
Qed.

(** The report for a changed name, and for a changed field whose name
    has seven bytes and five runes: it is padded with 15 spaces. *)
Lemma Render_report_layout_witness :
  stderr (fst (Render awsContext observed
                      (wanted (Some LifecycleExistsAndWarnIfChanges)) delta
                      exWorld))
  = ("Object from different phase did not match, problems possible:" ++ nl
     ++ "  VPC/?" ++ nl
     ++ "  " ++ tab ++ "Name                " ++ tab ++ " foo -> bar" ++ nl
     ++ nl)%string
  /\ String.length groesse = 7
  /\ stderr (fst (Render awsContext (vpc false None [(groesse, "1")])
                         (vpc false (Some LifecycleExistsAndValidates)
                              [(groesse, "2")])
                         delta exWorld))
     = ("Object from different phase did not match, problems possible:" ++ nl
        ++ "  VPC/?" ++ nl
        ++ "  " ++ tab ++ groesse ++ "               " ++ tab ++ " 1 -> 2"
        ++ nl ++ nl)%string.
Proof.
  split; [|split; [reflexivity|]].
  - refine (@Render_report_layout exEnv awsContext observed
              (wanted (Some LifecycleExistsAndWarnIfChanges)) delta exWorld
              [mkChange "Name" " foo -> bar"] (or_intror eq_refl) eq_refl
              eq_refl).
  - refine (@Render_report_layout exEnv awsContext
              (vpc false None [(groesse, "1")])
              (vpc false (Some LifecycleExistsAndValidates) [(groesse, "2")])
              delta exWorld
              [mkChange groesse " 1 -> 2"] (or_introl eq_refl) eq_refl
              eq_refl).
Defined.

(** The scratch directory goes; with a locked file under it the
    failure is logged. *)
Lemma Close_best_effort_witness :
  Tmpdir awsContext <> EmptyString
  /\ Close awsContext exWorld
     = mkWorld EmptyString
         [Infof 2 "deleting temp dir: %q" [ArgStr "/tmp/deploy1"]]
         [("/etc/passwd", true)] [] [] []
  /\ Close (mkContext "/etc" DryRunTarget false []) exWorld
     = mkWorld EmptyString
         [Infof 2 "deleting temp dir: %q" [ArgStr "/etc"];
          Warningf "unable to delete temporary directory %q: %v"
            [ArgStr "/etc";
             ArgErr (Errorf "unlinkat %s: permission denied"
                            [ArgStr "/etc"])]]
         [("/tmp/deploy1/a", false); ("/etc/passwd", true)] [] [] [].
Proof.
  split; [discriminate|]. split.
  - refine (@Close_best_effort exEnv awsContext exWorld _). discriminate.
  - refine (@Close_best_effort exEnv (mkContext "/etc" DryRunTarget false [])
              exWorld _). discriminate.
Defined.

End RenderExamples.

(** ** [PerformAssignments]: fields that are set stay as they are *)

Section Assignments.
Import kops cloudup AssignmentSpec.
Context {E : Env}.

Lemma allSet_defaulted (c c' : Cluster) :
  defaulted c' = defaulted c -> allSet c -> allSet c'.
Proof.
  unfold defaulted, allSet. intros H. inversion H as [[H1 H2 H3 H4 H5]].
  now rewrite H1, H2, H3, H4, H5.
Qed.

Lemma preserves_ret {A} (x : A) : preserves (ret x).
Proof. intros st _. reflexivity. Qed.

Lemma preserves_fail {A} (err : error) : preserves (@fail A err).
Proof. intros st _. reflexivity. Qed.

Lemma preserves_try {A} (r : A + error) : preserves (try r).
Proof. intros st _. reflexivity. Qed.

Lemma preserves_tryOr {A} (r : A + error) (e : error) :
  preserves (tryOr r e).
Proof. intros st _. unfold tryOr. destruct r; reflexivity. Qed.

Lemma preserves_glogf (l : LogLine) : preserves (glogf l).
Proof. intros st _. reflexivity. Qed.

Lemma preserves_bind {A B} (m : M A) (k : A -> M B) :
  preserves m -> (forall x, preserves (k x)) -> preserves (bind m k).
Proof.
  intros Hm Hk st Hset. unfold bind.
  specialize (Hm st Hset). destruct (m st) as [st' [x|err]]; simpl in *.
  - rewrite <- Hm. apply Hk. eapply allSet_defaulted; eauto.
  - exact Hm.
Qed.

(** After [c <- getCluster], the five fields of [c] are set. *)
Lemma preserves_getCluster {B} (k : Cluster -> M B) :
  (forall c, allSet c -> preserves (k c)) -> preserves (bind getCluster k).
Proof. intros Hk st Hset. unfold bind, getCluster. now apply Hk. Qed.

Lemma preserves_results {A} (m : M A) : preserves m -> preserves (results m).
Proof.
  intros Hm st Hset. unfold results. specialize (Hm st Hset).
  destruct (m st) as [st' r]. exact Hm.
Qed.

Lemma preserves_setSubnets (v : list ClusterSubnetSpec) :
  preserves (modifySpec (setSubnets v)).
Proof. intros st _. reflexivity. Qed.

Lemma preserves_setEgressProxy (v : option EgressProxySpec) :
  preserves (modifySpec (setEgressProxy v)).
Proof. intros st _. reflexivity. Qed.

Ltac preserve :=
  repeat first
    [ apply preserves_ret | apply preserves_fail | apply preserves_try
    | apply preserves_tryOr | apply preserves_glogf
    | apply preserves_setSubnets | apply preserves_setEgressProxy
    | apply preserves_results
    | apply preserves_getCluster; intros ? ?
    | apply preserves_bind; [|intros ?] ].

Lemma preserves_assignProxy : preserves assignProxy.
Proof.
  unfold assignProxy. apply preserves_getCluster. intros c _.
  destruct (EgressProxy (Spec c)) as [proxy|]; preserve.
  destruct (negb (NetworkCIDR (Spec c) =? EmptyString)); preserve.
Qed.

Lemma preserves_ensureKubernetesVersion :
  preserves ensureKubernetesVersion.
Proof.
  unfold ensureKubernetesVersion.
  apply preserves_getCluster. intros c Hc.
  assert ((KubernetesVersion (Spec c) =? EmptyString) = false) as Hk
      by (apply String.eqb_neq, Hc).
  rewrite Hk. preserve.
  match goal with
  | H : allSet ?c' |- _ =>
      assert ((KubernetesVersion (Spec c') =? EmptyString) = false) as Hk'
        by (apply String.eqb_neq, H)
  end.
  rewrite Hk'. preserve.
Qed.

Lemma preserves_PerformAssignments : preserves PerformAssignments.
Proof.
  unfold PerformAssignments, assignCIDRsToSubnets.
  apply preserves_getCluster. intros c Hc.
  apply preserves_bind; [preserve | intros cloud].
  assert ((NetworkCIDR (Spec c) =? EmptyString) = false) as Hn
      by (apply String.eqb_neq, Hc).
  rewrite Hn, andb_false_r.
  apply preserves_bind; [preserve | intros _].
  apply preserves_getCluster. intros c1 Hc1.
  apply preserves_bind; [| intros _].
  { destruct (Topology (Spec c1)) eqn:Ht; [preserve|].
    destruct Hc1 as (_ & _ & _ & Hset & _). congruence. }
  apply preserves_getCluster. intros c2 Hc2.
  apply preserves_bind; [| intros _].
  { replace (NetworkCIDR (Spec c2) =? EmptyString) with false
      by (symmetry; apply String.eqb_neq, Hc2).
    preserve. }
  apply preserves_getCluster. intros c3 Hc3.
  apply preserves_bind; [| intros _].
  { replace (NonMasqueradeCIDR (Spec c3) =? EmptyString) with false
      by (symmetry; apply String.eqb_neq, Hc3).
    preserve. }
  apply preserves_getCluster. intros c4 Hc4.
  apply preserves_bind; [| intros _].
  { replace (MasterPublicName (Spec c4) =? EmptyString) with false
      by (symmetry; apply String.eqb_neq, Hc4).
    preserve. }
  apply preserves_bind; [preserve | intros _].
  apply preserves_bind;
    [apply preserves_results, preserves_assignProxy | intros r].
  destruct r as [egressProxy|err]; [|preserve].
  apply preserves_bind;
    [preserve | intros _; apply preserves_ensureKubernetesVersion].
Qed.

(** C10. When [NetworkCIDR], [NonMasqueradeCIDR], [MasterPublicName],
    [Topology] and [KubernetesVersion] are all set before the call, a
    successful [PerformAssignments] leaves each of the five as it
    was. *)
Theorem PerformAssignments_keeps_set_fields (st : St) :
  NetworkCIDR (Spec (cluster st)) <> EmptyString ->
  NonMasqueradeCIDR (Spec (cluster st)) <> EmptyString ->
  MasterPublicName (Spec (cluster st)) <> EmptyString ->
  Topology (Spec (cluster st)) <> None ->
  KubernetesVersion (Spec (cluster st)) <> EmptyString ->
  snd (PerformAssignments st) = inl tt ->
  let c' := cluster (fst (PerformAssignments st)) in
  NetworkCIDR (Spec c') = NetworkCIDR (Spec (cluster st))
  /\ NonMasqueradeCIDR (Spec c') = NonMasqueradeCIDR (Spec (cluster st))
  /\ MasterPublicName (Spec c') = MasterPublicName (Spec (cluster st))
  /\ Topology (Spec c') = Topology (Spec (cluster st))
  /\ KubernetesVersion (Spec c') = KubernetesVersion (Spec (cluster st)).
Proof.
  intros H1 H2 H3 H4 H5 _ c'.
  assert (defaulted c' = defaulted (cluster st)) as H.
  { apply preserves_PerformAssignments. repeat split; assumption. }
  unfold defaulted in H. inversion H. repeat split; reflexivity.
Qed.

End Assignments.

(** ** [assignProxy]: a second run adds nothing *)

Section Proxy.
Import kops cloudup ProxySpec.
Context {E : Env}.

Lemma fold_addExclude (excludes : string) (l init : list string) :
  fold_left (addExclude excludes) l init
  = init
    ++ filter (fun x => negb (strings.Contains excludes x))
              (filter (fun x => negb (x =? EmptyString)) l).
Proof.
  revert init. induction l as [|x l IH]; intros init.
  - simpl. now rewrite app_nil_r.
  - simpl fold_left. rewrite IH. unfold addExclude. simpl filter.
    destruct (x =? EmptyString); simpl negb; cbv iota; [reflexivity|].
    simpl filter.
    destruct (strings.Contains excludes x); simpl negb; cbv iota.
    + reflexivity.
    + now rewrite <- app_assoc.
Qed.

(** What [assignProxy] does to the cluster and what it returns, for a
    cluster with a proxy. *)
Lemma assignProxy_run (st : St) (proxy : EgressProxySpec) :
  EgressProxy (Spec (cluster st)) = Some proxy ->
  let c := cluster st in
  (cluster (fst (assignProxy st)), snd (assignProxy st))
  = match net_ParseCIDR (NonMasqueradeCIDR (Spec c)) with
    | inr _ => (c, inr (Errorf "unable to parse Non Masquerade CIDR" []))
    | inl ipnet =>
        match incrementIP (fst ipnet) (NonMasqueradeCIDR (Spec c)) with
        | inr _ =>
            (c, inr (Errorf
               "unable to get first ip address in Non Masquerade CIDR" []))
        | inl firstIP =>
            let proxy' :=
              mkEgressProxySpec
                (excludesAfter c (ProxyExcludes proxy) firstIP) in
            (withSpec (setEgressProxy (Some proxy')) c, inl (Some proxy'))
        end
    end.
Proof.
  intros Hp c. subst c. unfold assignProxy, bind, getCluster, tryOr.
  rewrite Hp.
  destruct (net_ParseCIDR (NonMasqueradeCIDR (Spec (cluster st))))
    as [ipnet|err]; [|reflexivity].
  destruct (incrementIP (fst ipnet) (NonMasqueradeCIDR (Spec (cluster st))))
    as [firstIP|err]; [|reflexivity].
  cbv zeta. rewrite fold_addExclude.
  unfold excludesAfter, candidates. rewrite !filter_app.
  destruct (NetworkCIDR (Spec (cluster st)) =? EmptyString) eqn:Hn;
    destruct (CloudProvider (Spec (cluster st)) =? "aws") eqn:Ha;
    destruct (strings.Contains (ProxyExcludes proxy) "169.254.169.254")
      eqn:Hc1;
    destruct (strings.Contains (ProxyExcludes proxy)
                               (NetworkCIDR (Spec (cluster st)))) eqn:Hc2;
    unfold ret, glogf, modifySpec;
    cbn [negb andb fst snd cluster filter];
    rewrite ?Hc1, ?Hc2; cbn [negb];
    rewrite ?app_nil_r, <- ?app_assoc; reflexivity.
Qed.

Lemma candidates_nonempty (c : Cluster) (firstIP x : string) :
  In x (candidates c firstIP) -> x <> EmptyString.
Proof.
  unfold candidates. rewrite !in_app_iff, filter_In.
  intros [[_ H] | [H | H]].
  - apply String.eqb_neq. now destruct (x =? EmptyString).
  - destruct (CloudProvider (Spec c) =? "aws"); [|destruct H].
    destruct H as [<-|[]]. discriminate.
  - destruct (NetworkCIDR (Spec c) =? EmptyString) eqn:Hn; [destruct H|].
    destruct H as [<-|[]]. now apply String.eqb_neq.
Qed.

(** After [assignProxy] every candidate occurs in the excludes. *)
Lemma candidates_contained (c : Cluster) (excludes firstIP x : string) :
  In x (candidates c firstIP) ->
  strings.Contains (excludesAfter c excludes firstIP) x = true.
Proof.
  intros Hin. unfold excludesAfter.
  set (added := filter (fun e => negb (strings.Contains excludes e))
                       (candidates c firstIP)).
  destruct (strings.Contains excludes x) eqn:Hc.
  - assert (excludes <> EmptyString) as Hne.
    { intros ->. apply Contains_empty in Hc.
      now apply (candidates_nonempty Hin). }
    apply String.eqb_neq in Hne. rewrite Hne. cbn [negb].
    destruct added as [|y ys].
    + rewrite app_nil_r, Join_Split by discriminate. exact Hc.
    + rewrite Join_app by (try apply Split_nonempty; discriminate).
      rewrite Join_Split by discriminate.
      now apply (Contains_extend EmptyString).
  - apply Contains_Join, in_or_app. right. subst added.
    apply filter_In. split; [exact Hin | now rewrite Hc].
Qed.

Lemma filter_none {A} (f : A -> bool) (l : list A) :
  (forall x, In x l -> f x = false) -> filter f l = [].
Proof.
  induction l as [|x l IH]; intros H; [reflexivity|].
  simpl. rewrite (H x (or_introl eq_refl)). apply IH.
  intros y Hy. apply H. now right.
Qed.

(** Computing the excludes from its own result gives the result
    back. *)
Lemma excludesAfter_idempotent (c : Cluster) (excludes firstIP : string) :
  excludesAfter c (excludesAfter c excludes firstIP) firstIP
  = excludesAfter c excludes firstIP.
Proof.
  set (once := excludesAfter c excludes firstIP).
  unfold excludesAfter at 1. fold once.
  rewrite filter_none, app_nil_r.
  - destruct (once =? EmptyString) eqn:He; cbn [negb].
    + apply String.eqb_eq in He. now rewrite He.
    + apply Join_Split. discriminate.
  - intros x Hin. subst once.
    now rewrite (candidates_contained excludes Hin).
Qed.

(** C9. For a cluster with a proxy on which [assignProxy] succeeds:
    the result is the proxy of the cluster as the call leaves it, a
    second [assignProxy] on that cluster succeeds too, and its
    [ProxyExcludes] is the string of the first. *)
Theorem assignProxy_idempotent
        (st : St) (proxy : EgressProxySpec)
        (r : option EgressProxySpec) :
  EgressProxy (Spec (cluster st)) = Some proxy ->
  snd (assignProxy st) = inl r ->
  let st1 := fst (assignProxy st) in
  exists once twice,
    r = Some once
    /\ EgressProxy (Spec (cluster st1)) = Some once
    /\ snd (assignProxy st1) = inl (Some twice)
    /\ ProxyExcludes twice = ProxyExcludes once.
Proof.
  intros Hp Hr st1.
  pose proof (assignProxy_run st Hp) as Hrun. cbv zeta in Hrun.
  destruct (net_ParseCIDR (NonMasqueradeCIDR (Spec (cluster st))))
    as [ipnet|err] eqn:Hparse;
    [|inversion Hrun as [[Hc Hs]]; rewrite Hs in Hr; discriminate].
  destruct (incrementIP (fst ipnet) (NonMasqueradeCIDR (Spec (cluster st))))
    as [firstIP|err] eqn:Hinc;
    [|inversion Hrun as [[Hc Hs]]; rewrite Hs in Hr; discriminate].
  inversion Hrun as [[Hc Hs]]. clear Hrun.
  set (once := mkEgressProxySpec
                 (excludesAfter (cluster st) (ProxyExcludes proxy) firstIP))
    in *.
  assert (EgressProxy (Spec (cluster st1)) = Some once) as Hp1
      by (subst st1; now rewrite Hc).
  pose proof (assignProxy_run st1 Hp1) as Hrun1. cbv zeta in Hrun1.
  assert (NonMasqueradeCIDR (Spec (cluster st1))
          = NonMasqueradeCIDR (Spec (cluster st))) as Hnm
      by (subst st1; now rewrite Hc).
  rewrite Hnm, Hparse, Hinc in Hrun1.
  inversion Hrun1 as [[Hc1 Hs1]]. clear Hrun1.
  exists once.
  exists (mkEgressProxySpec
            (excludesAfter (cluster st1) (ProxyExcludes once) firstIP)).
  repeat split.
  - rewrite Hs in Hr. now inversion Hr.
  - exact Hp1.
  - exact Hs1.
  - subst st1. rewrite Hc. subst once. cbn [ProxyExcludes].
    exact (excludesAfter_idempotent (cluster st) (ProxyExcludes proxy)
                                    firstIP).
Qed.

End Proxy.

(** ** The defaulting code on the sample clusters *)

Section DefaultingExamples.
Import kops cloudup CloudupExamples.

(** The proxied cluster: the first run appends eight values to the two
    the user gave, the second run returns the same string. *)
Lemma assignProxy_idempotent_witness :
  let st := mkSt proxiedCluster [] in
  let excludes :=
    "localhost,10.1.2.3,127.0.0.1,cluster.local,api.k.example.com,k.example.com,100.64.0.1,100.64.0.0/10,169.254.169.254,172.20.0.0/16"
  in
  snd (assignProxy st) = inl (Some (mkEgressProxySpec excludes))
  /\ exists once twice,
       Some (mkEgressProxySpec excludes) = Some once
       /\ EgressProxy (Spec (cluster (fst (assignProxy st)))) = Some once
       /\ snd (assignProxy (fst (assignProxy st))) = inl (Some twice)
       /\ ProxyExcludes twice = ProxyExcludes once.
Proof.
  intros st excludes. split; [reflexivity|].
  exact (@assignProxy_idempotent CloudupExamples.exEnv st
           (mkEgressProxySpec "localhost,10.1.2.3")
           (Some (mkEgressProxySpec excludes)) eq_refl eq_refl).
Defined.

(** The pinned cluster: the call succeeds and the five fields are the
    ones the user pinned. *)
Lemma PerformAssignments_keeps_set_fields_witness :
  let st := mkSt pinnedCluster [] in
  let c' := cluster (fst (PerformAssignments st)) in
  snd (PerformAssignments st) = inl tt
  /\ NetworkCIDR (Spec c') = "10.20.0.0/16"
  /\ NonMasqueradeCIDR (Spec c') = "100.96.0.0/11"
  /\ MasterPublicName (Spec c') = "master.k.example.com"
  /\ Topology (Spec c') = Some (mkTopologySpec "private" "private")
  /\ KubernetesVersion (Spec c') = "1.6.0".
Proof.
  intros st c'. split; [reflexivity|].
  refine (@PerformAssignments_keeps_set_fields CloudupExamples.exEnv st
            _ _ _ _ _ eq_refl); discriminate.
Defined.

End DefaultingExamples.


(* ================================================================== *)
(** * Part III: further properties of the two files                    *)
(* ================================================================== *)

(** ** [incrementIP]: the loop adds one *)

Section Increment.
Import kops cloudup DefaultingSpec.
Context {E : Env}.

Lemma beValue_snoc (pre : net.IP) (b : Z) :
  beValue (pre ++ [b]) = (beValue pre * 256 + b)%Z.
Proof. unfold beValue. now rewrite fold_left_app. Qed.

Lemma beValue_bound (ip : net.IP) :
  Forall isByte ip -> (0 <= beValue ip < 256 ^ Z.of_nat (List.length ip))%Z.
Proof.
  induction ip as [|b pre IH] using rev_ind; intros Hall.
  - change (0 <= 0 < 1)%Z. lia.
  - apply Forall_app in Hall. destruct Hall as [Hpre Hb].
    inversion Hb as [|? ? Hb' _]; subst. unfold isByte in Hb'.
    specialize (IH Hpre). rewrite beValue_snoc, length_app. simpl List.length.
    rewrite Nat2Z.inj_add, Z.pow_add_r by lia.
    change (256 ^ Z.of_nat 1)%Z with 256%Z. nia.
Qed.

Lemma nth_middle_byte (pre suf : net.IP) (b : Z) :
  nth (List.length pre) (pre ++ b :: suf) 0%Z = b.
Proof. induction pre as [|x pre IH]; simpl; [reflexivity | exact IH]. Qed.

Lemma setByte_middle (pre suf : net.IP) (b v : Z) :
  setByte (List.length pre) v (pre ++ b :: suf) = pre ++ v :: suf.
Proof. induction pre as [|x pre IH]; simpl; [reflexivity | now rewrite IH]. Qed.

(** The loop over the first [n] bytes: they spell one more, modulo
    [256 ^ n]; the bytes behind them stay. *)
Lemma incrementLoop_prefix (n : nat) :
  forall pre suf,
    List.length pre = n -> Forall isByte pre ->
    exists pre',
      incrementLoop n (pre ++ suf) = pre' ++ suf
      /\ List.length pre' = n
      /\ Forall isByte pre'
      /\ beValue pre' = ((beValue pre + 1) mod 256 ^ Z.of_nat n)%Z.
Proof.
  induction n as [|n IH]; intros pre suf Hlen Hall.
  - destruct pre; [|discriminate]. exists []. repeat split; auto.
  - destruct pre as [|x pre0] using rev_ind; [discriminate|]. clear IHpre0.
    rewrite length_app in Hlen. simpl in Hlen.
    assert (List.length pre0 = n) as Hn by lia.
    apply Forall_app in Hall. destruct Hall as [Hpre0 Hx].
    inversion Hx as [|? ? Hx' _]; subst. unfold isByte in Hx'.
    pose proof (beValue_bound Hpre0) as Hb.
    rewrite <- app_assoc. simpl app.
    cbn [incrementLoop]. rewrite nth_middle_byte, setByte_middle.
    rewrite nth_middle_byte.
    rewrite Nat2Z.inj_succ, Z.pow_succ_r by lia.
    destruct (Z.eq_dec x 255) as [->|Hne].
    + change ((255 + 1) mod 256)%Z with 0%Z. cbn [Z.eqb negb].
      destruct (IH pre0 (0%Z :: suf) eq_refl Hpre0)
        as [pre' [Hrun [Hlen' [Hall' Hval]]]].
      exists (pre' ++ [0%Z]). rewrite <- app_assoc. simpl app.
      repeat split.
      * exact Hrun.
      * rewrite length_app. simpl. lia.
      * apply Forall_app. split; [exact Hall'|].
        constructor; [unfold isByte; lia | constructor].
      * rewrite !beValue_snoc, Hval.
        replace (beValue pre0 * 256 + 255 + 1)%Z
          with ((beValue pre0 + 1) * 256)%Z by lia.
        rewrite (Z.mul_comm 256), Z.mul_mod_distr_r by lia. lia.
    + assert (((x + 1) mod 256)%Z = (x + 1)%Z) as Hmod
          by (apply Z.mod_small; lia).
      rewrite Hmod.
      replace (negb (x + 1 =? 0)%Z) with true
        by (symmetry; apply negb_true_iff, Z.eqb_neq; lia).
      exists (pre0 ++ [(x + 1)%Z]). rewrite <- app_assoc. simpl app.
      repeat split.
      * rewrite length_app. simpl. lia.
      * apply Forall_app. split; [exact Hpre0|].
        constructor; [unfold isByte; lia | constructor].
      * rewrite !beValue_snoc. rewrite Z.mod_small by nia. lia.
Qed.

(** X1. On a slice of bytes the loop of [incrementIP] keeps the length,
    leaves bytes, and the slice read as a number, most significant byte
    first, is one more than before, wrapping to zero after the
    largest. *)
Theorem incrementLoop_adds_one (ip : net.IP) :
  Forall isByte ip ->
  let ip' := incrementLoop (List.length ip) ip in
  List.length ip' = List.length ip
  /\ Forall isByte ip'
  /\ beValue ip'
     = ((beValue ip + 1) mod 256 ^ Z.of_nat (List.length ip))%Z.
Proof.
  intros Hall ip'. subst ip'.
  destruct (@incrementLoop_prefix (List.length ip) ip [] eq_refl Hall)
    as [pre' [Hrun [Hlen [Hall' Hval]]]].
  rewrite !app_nil_r in Hrun. rewrite Hrun. repeat split; assumption.
Qed.

End Increment.

(** ** [assignProxy]: failures, the user's excludes, the frame *)

Section ProxyFurther.
Import kops cloudup ProxySpec DefaultingSpec.
Context {E : Env}.

(** The whole of [assignProxy] on a cluster with a proxy, by the two
    lookups it makes. *)
Lemma assignProxy_paths (st : St) (proxy : EgressProxySpec) :
  EgressProxy (Spec (cluster st)) = Some proxy ->
  match net_ParseCIDR (NonMasqueradeCIDR (Spec (cluster st))) with
  | inr _ => assignProxy st = (st, inr cannotParse)
  | inl ipnet =>
      match incrementIP (fst ipnet) (NonMasqueradeCIDR (Spec (cluster st)))
      with
      | inr _ => assignProxy st = (st, inr noFirstIP)
      | inl _ => exists once, snd (assignProxy st) = inl (Some once)
      end
  end.
Proof.
  intros Hp. unfold assignProxy, bind, getCluster, tryOr. rewrite Hp.
  destruct (net_ParseCIDR (NonMasqueradeCIDR (Spec (cluster st))))
    as [ipnet|err]; [|reflexivity].
  destruct (incrementIP (fst ipnet) (NonMasqueradeCIDR (Spec (cluster st))))
    as [firstIP|err]; [|reflexivity].
  cbv zeta.
  destruct (negb (NetworkCIDR (Spec (cluster st)) =? EmptyString));
    eexists; reflexivity.
Qed.

(** X2. [assignProxy] fails only for a cluster with a proxy, in one of
    two ways, and then has changed nothing, in the cluster or in the
    log: its first error means [NonMasqueradeCIDR] does not parse; its
    second means the CIDR parses and the address after its base address
    lies outside the network (the second parse, inside [incrementIP],
    cannot be what fails). *)
Theorem assignProxy_failure (st : St) (err : error) :
  snd (assignProxy st) = inr err ->
  fst (assignProxy st) = st
  /\ EgressProxy (Spec (cluster st)) <> None
  /\ ((err = cannotParse
       /\ exists cause,
            net_ParseCIDR (NonMasqueradeCIDR (Spec (cluster st)))
            = inr cause)
      \/ (err = noFirstIP
          /\ exists ip ipNet,
               net_ParseCIDR (NonMasqueradeCIDR (Spec (cluster st)))
               = inl (ip, ipNet)
               /\ IPNet_Contains ipNet (incrementLoop (List.length ip) ip)
                  = false)).
Proof.
  intros Herr.
  destruct (EgressProxy (Spec (cluster st))) as [proxy|] eqn:Hp.
  - pose proof (assignProxy_paths st Hp) as Hpaths.
    destruct (net_ParseCIDR (NonMasqueradeCIDR (Spec (cluster st))))
      as [[ip ipNet]|cause] eqn:Hparse.
    + unfold incrementIP in Hpaths. rewrite Hparse in Hpaths.
      cbn [fst] in Hpaths.
      destruct (IPNet_Contains ipNet (incrementLoop (List.length ip) ip))
        eqn:Hin; cbn [negb] in Hpaths.
      * destruct Hpaths as [once Hs]. rewrite Hs in Herr. discriminate.
      * rewrite Hpaths in Herr |- *. inversion Herr; subst.
        repeat split; [discriminate|]. right. split; [reflexivity|].
        now exists ip, ipNet.
    + rewrite Hpaths in Herr |- *. inversion Herr; subst.
      repeat split; [discriminate|]. left. split; [reflexivity|].
      now exists cause.
  - exfalso. unfold assignProxy, bind, getCluster in Herr.
    rewrite Hp in Herr. discriminate.
Qed.

Lemma excludesAfter_prefix (c : Cluster) (excludes firstIP : string) :
  strings.HasPrefix (excludesAfter c excludes firstIP) excludes = true.
Proof.
  unfold strings.HasPrefix, excludesAfter.
  destruct (excludes =? EmptyString) eqn:He; cbn [negb].
  - apply String.eqb_eq in He. subst. apply prefix_iff. eexists. reflexivity.
  - destruct (filter _ (candidates c firstIP)) as [|y ys].
    + rewrite app_nil_r, Join_Split by discriminate.
      apply prefix_iff. exists EmptyString. now rewrite append_nil_r.
    + rewrite Join_app by (try apply Split_nonempty; discriminate).
      rewrite Join_Split by discriminate. apply prefix_append.
Qed.

(** A successful [assignProxy] on a cluster with a proxy made both
    lookups and returns the excludes computed from them. *)
Lemma assignProxy_success_excludes
      (st : St) (proxy : EgressProxySpec) (r : option EgressProxySpec) :
  EgressProxy (Spec (cluster st)) = Some proxy ->
  snd (assignProxy st) = inl r ->
  exists ipnet firstIP,
    net_ParseCIDR (NonMasqueradeCIDR (Spec (cluster st))) = inl ipnet
    /\ incrementIP (fst ipnet) (NonMasqueradeCIDR (Spec (cluster st)))
       = inl firstIP
    /\ r = Some (mkEgressProxySpec
                   (excludesAfter (cluster st) (ProxyExcludes proxy)
                                  firstIP)).
Proof.
  intros Hp Hr.
  pose proof (assignProxy_run st Hp) as Hrun. cbv zeta in Hrun.
  destruct (net_ParseCIDR (NonMasqueradeCIDR (Spec (cluster st))))
    as [ipnet|err] eqn:Hparse;
    [|inversion Hrun as [[Hc Hs]]; rewrite Hs in Hr; discriminate].
  destruct (incrementIP (fst ipnet) (NonMasqueradeCIDR (Spec (cluster st))))
    as [firstIP|err] eqn:Hinc;
    [|inversion Hrun as [[Hc Hs]]; rewrite Hs in Hr; discriminate].
  inversion Hrun as [[Hc Hs]]. rewrite Hs in Hr. inversion Hr; subst r.
  exists ipnet, firstIP. split; [reflexivity|]. split; [exact Hinc|].
  reflexivity.
Qed.

(** X3. A successful [assignProxy] keeps what the user wrote: the new
    [ProxyExcludes] begins with the old string, and every candidate,
    the first address of the non-masquerade network among them, occurs
    in it. *)
Theorem assignProxy_keeps_and_covers
        (st : St) (proxy : EgressProxySpec) (r : option EgressProxySpec) :
  EgressProxy (Spec (cluster st)) = Some proxy ->
  snd (assignProxy st) = inl r ->
  exists once ipnet firstIP,
    r = Some once
    /\ net_ParseCIDR (NonMasqueradeCIDR (Spec (cluster st))) = inl ipnet
    /\ incrementIP (fst ipnet) (NonMasqueradeCIDR (Spec (cluster st)))
       = inl firstIP
    /\ strings.HasPrefix (ProxyExcludes once) (ProxyExcludes proxy) = true
    /\ forall exclude,
         In exclude (candidates (cluster st) firstIP) ->
         strings.Contains (ProxyExcludes once) exclude = true.
Proof.
  intros Hp Hr.
  destruct (assignProxy_success_excludes st Hp Hr)
    as (ipnet & firstIP & Hparse & Hinc & ->).
  eexists. exists ipnet, firstIP.
  split; [reflexivity|]. split; [exact Hparse|]. split; [exact Hinc|].
  split.
  - apply excludesAfter_prefix.
  - intros exclude Hin. cbn [ProxyExcludes].
    now apply candidates_contained.
Qed.

Lemma setEgressProxy_same (s : ClusterSpec) :
  setEgressProxy (EgressProxy s) s = s.
Proof. destruct s. reflexivity. Qed.

(** X4. [assignProxy] writes to nothing in the cluster but the proxy:
    with the old proxy put back, the spec is the old spec, whether the
    call succeeds or fails; and without a proxy the call returns nil
    with no error and leaves the cluster as it is, whatever the
    CIDRs. *)
Theorem assignProxy_frame (st : St) :
  let c' := cluster (fst (assignProxy st)) in
  ObjectMeta_ c' = ObjectMeta_ (cluster st)
  /\ setEgressProxy (EgressProxy (Spec (cluster st))) (Spec c')
     = Spec (cluster st)
  /\ (EgressProxy (Spec (cluster st)) = None ->
      c' = cluster st /\ snd (assignProxy st) = inl None).
Proof.
  intros c'. subst c'.
  destruct (EgressProxy (Spec (cluster st))) as [proxy|] eqn:Hp.
  - pose proof (assignProxy_run st Hp) as Hrun. cbv zeta in Hrun.
    assert (cluster (fst (assignProxy st)) = cluster st
            \/ exists p, cluster (fst (assignProxy st))
                         = withSpec (setEgressProxy p) (cluster st)) as H.
    { destruct (net_ParseCIDR _) as [ipnet|err];
        [|inversion Hrun; now left].
      destruct (incrementIP _ _) as [firstIP|err];
        [|inversion Hrun; now left].
      inversion Hrun as [[Hc Hs]]. right. eexists. exact Hc. }
    repeat split; try discriminate.
    + destruct H as [->|[p ->]]; reflexivity.
    + destruct H as [->|[p ->]].
      * rewrite <- Hp. apply setEgressProxy_same.
      * change (setEgressProxy (Some proxy) (Spec (cluster st))
                = Spec (cluster st)).
        rewrite <- Hp. apply setEgressProxy_same.
  - unfold assignProxy, bind, getCluster. rewrite Hp. cbn.
    repeat split.
    rewrite <- Hp. apply setEgressProxy_same.
Qed.

End ProxyFurther.

(** ** UTF-8 and [strings.TrimSpace] *)

Section Runes.

Lemma list_ascii_of_string_append (a b : string) :
  list_ascii_of_string (a ++ b)
  = (list_ascii_of_string a ++ list_ascii_of_string b)%list.
Proof. induction a as [|c a IH]; simpl; [reflexivity | now rewrite IH]. Qed.

Lemma string_of_list_ascii_app (l1 l2 : list ascii) :
  string_of_list_ascii (l1 ++ l2)
  = (string_of_list_ascii l1 ++ string_of_list_ascii l2)%string.
Proof. induction l1 as [|c l IH]; simpl; [reflexivity | now rewrite IH]. Qed.

Lemma reverse_append (a b : string) :
  utf8.reverse (a ++ b) = (utf8.reverse b ++ utf8.reverse a)%string.
Proof.
  unfold utf8.reverse.
  now rewrite list_ascii_of_string_append, rev_app_distr,
    string_of_list_ascii_app.
Qed.

Lemma reverse_involutive (s : string) : utf8.reverse (utf8.reverse s) = s.
Proof.
  unfold utf8.reverse.
  now rewrite list_ascii_of_string_of_list_ascii, rev_involutive,
    string_of_list_ascii_of_string.
Qed.

Lemma IsSpace_RuneError : unicode.IsSpace utf8.RuneError = false.
Proof. reflexivity. Qed.

(** A white-space rune at the front of a string is decoded the same
    whatever follows the string. *)
Lemma DecodeRuneInString_prefix (p q : string) :
  unicode.IsSpace (fst (utf8.DecodeRuneInString p)) = true ->
  utf8.DecodeRuneInString (p ++ q) = utf8.DecodeRuneInString p.
Proof.
  destruct p as [|c0 t0]; [discriminate|].
  change (String c0 t0 ++ q)%string with (String c0 (t0 ++ q)).
  unfold utf8.DecodeRuneInString.
  destruct (utf8.first (utf8.byte c0)) as [[sz [lo hi]]|]; [|reflexivity].
  destruct (String.length (String c0 t0) <? sz)%nat eqn:Hlen;
    [discriminate|].
  assert ((String.length (String c0 (t0 ++ q)) <? sz)%nat = false) as Hlen'.
  { apply Nat.ltb_ge in Hlen. apply Nat.ltb_ge. simpl in *.
    rewrite length_append. lia. }
  rewrite Hlen'.
  destruct t0 as [|c1 t1]; [discriminate|].
  change (String c1 t1 ++ q)%string with (String c1 (t1 ++ q)). cbv iota.
  destruct ((utf8.byte c1 <? lo) || (hi <? utf8.byte c1))%N; [discriminate|].
  destruct (sz <=? 2)%nat; [reflexivity|].
  destruct t1 as [|c2 t2]; [discriminate|].
  change (String c2 t2 ++ q)%string with (String c2 (t2 ++ q)). cbv iota.
  destruct (negb (utf8.continuation (utf8.byte c2))); [discriminate|].
  destruct (sz <=? 3)%nat; [reflexivity|].
  destruct t2 as [|c3 t3]; [discriminate|].
  reflexivity.
Qed.

Lemma trimLeftFrom_cons (c : ascii) (s : string) (skip : nat) :
  strings.trimLeftFrom skip (String c s)
  = match skip with
    | S k => strings.trimLeftFrom k s
    | O =>
        let (r, size) := utf8.DecodeRuneInString (String c s) in
        if unicode.IsSpace r then strings.trimLeftFrom (size - 1) s
        else String c s
    end.
Proof. reflexivity. Qed.

Lemma trimRightFrom_cons (c : ascii) (r : string) (skip : nat) :
  strings.trimRightFrom skip (String c r)
  = match skip with
    | S k => strings.trimRightFrom k r
    | O =>
        let (rune, size) := utf8.decodeLast (String c r) in
        if unicode.IsSpace rune then strings.trimRightFrom (size - 1) r
        else String c r
    end.
Proof. reflexivity. Qed.

Lemma trimLeftFrom_first (s : string) (skip : nat) :
  unicode.IsSpace (fst (utf8.DecodeRuneInString (strings.trimLeftFrom skip s)))
  = false.
Proof.
  revert skip. induction s as [|c s IH]; intros skip; [reflexivity|].
  rewrite trimLeftFrom_cons. destruct skip as [|k]; [|apply IH].
  destruct (utf8.DecodeRuneInString (String c s)) as [r size] eqn:Hd.
  destruct (unicode.IsSpace r) eqn:Hr; [apply IH|].
  now rewrite Hd.
Qed.

Lemma trimRightFrom_last (r : string) (skip : nat) :
  unicode.IsSpace (fst (utf8.decodeLast (strings.trimRightFrom skip r)))
  = false.
Proof.
  revert skip. induction r as [|c r IH]; intros skip; [reflexivity|].
  rewrite trimRightFrom_cons. destruct skip as [|k]; [|apply IH].
  destruct (utf8.decodeLast (String c r)) as [rune size] eqn:Hd.
  destruct (unicode.IsSpace rune) eqn:Hr; [apply IH|].
  now rewrite Hd.
Qed.

Lemma trimRightFrom_suffix (r : string) (skip : nat) :
  exists h, r = (h ++ strings.trimRightFrom skip r)%string.
Proof.
  revert skip. induction r as [|c r IH]; intros skip.
  - now exists EmptyString.
  - rewrite trimRightFrom_cons.
    assert (forall k, exists h,
               String c r = (h ++ strings.trimRightFrom k r)%string) as Hk.
    { intros k. destruct (IH k) as [h Hh]. exists (String c h).
      simpl. now rewrite <- Hh. }
    destruct skip as [|k]; [|apply Hk].
    destruct (utf8.decodeLast (String c r)) as [rune size].
    destruct (unicode.IsSpace rune); [apply Hk|].
    now exists EmptyString.
Qed.

Lemma trimRight_prefix (s : string) :
  exists t, s = (strings.trimRight s ++ t)%string.
Proof.
  unfold strings.trimRight.
  destruct (trimRightFrom_suffix (utf8.reverse s) 0) as [h Hh].
  exists (utf8.reverse h).
  rewrite <- reverse_append, <- Hh. now rewrite reverse_involutive.
Qed.

Lemma trimLeftFrom_suffix (s : string) (skip : nat) :
  exists h, s = (h ++ strings.trimLeftFrom skip s)%string.
Proof.
  revert skip. induction s as [|c s IH]; intros skip.
  - now exists EmptyString.
  - rewrite trimLeftFrom_cons.
    assert (forall k, exists h,
               String c s = (h ++ strings.trimLeftFrom k s)%string) as Hk.
    { intros k. destruct (IH k) as [h Hh]. exists (String c h).
      simpl. now rewrite <- Hh. }
    destruct skip as [|k]; [|apply Hk].
    destruct (utf8.DecodeRuneInString (String c s)) as [r size].
    destruct (unicode.IsSpace r); [apply Hk|].
    now exists EmptyString.
Qed.

(** What [strings.TrimSpace] returns is a segment of its argument that
    neither begins nor ends with a white-space rune. *)
Lemma TrimSpace_segment (s : string) :
  exists lead trail, s = (lead ++ strings.TrimSpace s ++ trail)%string.
Proof.
  unfold strings.TrimSpace, strings.trimLeft.
  destruct (trimLeftFrom_suffix s 0) as [lead Hlead].
  destruct (trimRight_prefix (strings.trimLeftFrom 0 s)) as [trail Htrail].
  exists lead, trail. now rewrite <- Htrail.
Qed.

Lemma TrimSpace_first (s : string) :
  unicode.IsSpace (fst (utf8.DecodeRuneInString (strings.TrimSpace s)))
  = false.
Proof.
  unfold strings.TrimSpace.
  destruct (unicode.IsSpace
              (fst (utf8.DecodeRuneInString
                      (strings.trimRight (strings.trimLeft s))))) eqn:H;
    [|reflexivity].
  destruct (trimRight_prefix (strings.trimLeft s)) as [t Ht].
  pose proof (DecodeRuneInString_prefix _ t H) as Hp.
  rewrite <- Ht in Hp. rewrite <- Hp in H.
  unfold strings.trimLeft in H. now rewrite trimLeftFrom_first in H.
Qed.

Lemma TrimSpace_last (s : string) :
  unicode.IsSpace (fst (utf8.DecodeLastRuneInString (strings.TrimSpace s)))
  = false.
Proof.
  unfold strings.TrimSpace, strings.trimRight, utf8.DecodeLastRuneInString.
  rewrite reverse_involutive. apply trimRightFrom_last.
Qed.

End Runes.

(** ** [ensureKubernetesVersion] and [FindLatestKubernetesVersion] *)

Section Version.
Import kops cloudup DefaultingSpec.
Context {E : Env}.

(** X5. [FindLatestKubernetesVersion] never touches the cluster and
    logs one warning before it reads.  When the read fails it returns
    an error that names the location and wraps the cause; when the read
    succeeds it returns what [strings.TrimSpace] makes of the text: a
    segment of it whose first and last rune are no white space, in
    the sense of Unicode. *)
Theorem FindLatestKubernetesVersion_result (st : St) :
  let warned :=
    mkSt (cluster st)
         (glog st ++ [Warningf "Loading latest kubernetes version from %q"
                               [ArgStr stableURL]]) in
  fst (FindLatestKubernetesVersion st) = warned
  /\ match vfs_ReadFile stableURL with
     | inr cause =>
         snd (FindLatestKubernetesVersion st)
         = inr (Errorf
             "KubernetesVersion not specified, and unable to download latest version from %q: %v"
             [ArgStr stableURL; ArgErr cause])
     | inl b =>
         exists version,
           snd (FindLatestKubernetesVersion st) = inl version
           /\ version = strings.TrimSpace b
           /\ (exists lead trail, b = (lead ++ version ++ trail)%string)
           /\ unicode.IsSpace (firstRune version) = false
           /\ unicode.IsSpace (lastRune version) = false
     end.
Proof.
  intros warned. subst warned.
  unfold FindLatestKubernetesVersion, bind, glogf. fold stableURL.
  destruct (vfs_ReadFile stableURL) as [b|cause]; cbn.
  - split; [reflexivity|]. exists (strings.TrimSpace b).
    split; [reflexivity|]. split; [reflexivity|].
    split; [apply TrimSpace_segment|].
    split; [apply TrimSpace_first | apply TrimSpace_last].
  - split; reflexivity.
Qed.

(** X6. The order in which [ensureKubernetesVersion] looks for a
    version.  A version that is set wins: nothing is loaded, logged or
    changed.  With none set and a channel named, a channel that cannot
    be loaded is the error of the call, with nothing changed and no
    second try; a channel that recommends a non-empty version gives
    that version, and the stable location is not consulted (the log
    gains one line and no warning). *)
Theorem ensureKubernetesVersion_order (st : St) :
  (KubernetesVersion (Spec (cluster st)) <> EmptyString ->
   ensureKubernetesVersion st = (st, inl tt))
  /\ (KubernetesVersion (Spec (cluster st)) = EmptyString ->
      Channel (Spec (cluster st)) <> EmptyString ->
      (forall err,
          LoadChannel (Channel (Spec (cluster st))) = inr err ->
          ensureKubernetesVersion st = (st, inr err))
      /\ (forall channel v,
             LoadChannel (Channel (Spec (cluster st))) = inl channel ->
             RecommendedKubernetesVersion channel kopsversion_Version
             = Some v ->
             v <> EmptyString ->
             ensureKubernetesVersion st
             = (mkSt (withSpec (setKubernetesVersion v) (cluster st))
                     (glog st
                      ++ [Infof 0 "Using KubernetesVersion %q from channel %q"
                            [ArgStr v;
                             ArgStr (Channel (Spec (cluster st)))]]),
                inl tt))).
Proof.
  split; [|intros Hempty Hchannel; apply String.eqb_neq in Hchannel; split].
  - intros Hset. apply String.eqb_neq in Hset.
    unfold ensureKubernetesVersion, bind, getCluster. rewrite Hset. cbn.
    rewrite Hset. reflexivity.
  - intros err Hload.
    unfold ensureKubernetesVersion, bind, getCluster, try.
    rewrite Hempty, Hload, Hchannel. reflexivity.
  - intros channel v Hload Hrec Hv.
    unfold ensureKubernetesVersion, bind, getCluster, try.
    rewrite Hempty, Hload, Hchannel. cbn.
    rewrite Hrec. cbn. apply String.eqb_neq in Hv. rewrite Hv. reflexivity.
Qed.

(** X7. A successful [ensureKubernetesVersion] leaves the version empty
    only when it went to the stable location and the text found there
    is blank. *)
Theorem ensureKubernetesVersion_empty_only_if_blank (st : St) :
  snd (ensureKubernetesVersion st) = inl tt ->
  KubernetesVersion (Spec (cluster (fst (ensureKubernetesVersion st))))
  = EmptyString ->
  exists b,
    vfs_ReadFile stableURL = inl b /\ strings.TrimSpace b = EmptyString.
Proof.
  unfold ensureKubernetesVersion, FindLatestKubernetesVersion, bind,
    getCluster, try, glogf, modifySpec, ret, fail.
  fold stableURL.
  destruct (KubernetesVersion (Spec (cluster st)) =? EmptyString) eqn:Hk.
  - destruct (negb (Channel (Spec (cluster st)) =? EmptyString)).
    + destruct (LoadChannel (Channel (Spec (cluster st))))
        as [channel|err]; [|discriminate].
      cbv zeta.
      destruct (RecommendedKubernetesVersion channel kopsversion_Version)
        as [v|]; cbn.
      * destruct (v =? EmptyString) eqn:Hv.
        -- destruct (vfs_ReadFile stableURL) as [b|cause]; cbn;
             [|discriminate].
           intros _ Hb. now exists b.
        -- cbn. intros _ Hb. apply String.eqb_neq in Hv. contradiction.
      * rewrite Hk.
        destruct (vfs_ReadFile stableURL) as [b|cause]; cbn;
          [|discriminate].
        intros _ Hb. now exists b.
    + cbn. rewrite Hk.
      destruct (vfs_ReadFile stableURL) as [b|cause]; cbn; [|discriminate].
      intros _ Hb. now exists b.
  - cbn. rewrite Hk. cbn. intros _ Hb.
    apply String.eqb_neq in Hk. contradiction.
Qed.

End Version.

(** ** [PerformAssignments]: the run, stage by stage *)

Section AssignmentsFurther.
Import kops cloudup ProxySpec DefaultingSpec.
Context {E : Env}.

Lemma PerformAssignments_stages :
  PerformAssignments
  = bind getCluster (fun c =>
    bind (try (BuildCloud c)) (fun cloud =>
    bind (if SharedVPC c && (NetworkCIDR (Spec c) =? EmptyString) then
            bind (try (FindVPCInfo cloud (NetworkID (Spec c))))
              (fun vpcInfo =>
                 match vpcInfo with
                 | None =>
                     fail (Errorf "unable to find VPC ID %q"
                                  [ArgStr (NetworkID (Spec c))])
                 | Some vpcInfo =>
                     bind (modifySpec (setNetworkCIDR (CIDR vpcInfo)))
                       (fun _ =>
                          if CIDR vpcInfo =? EmptyString then
                            fail (Errorf
                              "Unable to infer NetworkCIDR from VPC ID, please specify --network-cidr"
                              [])
                          else ret tt)
                 end)
          else ret tt)
      (fun _ => defaultsThen assignmentsTail))).
Proof. reflexivity. Qed.

(** The defaulting steps are the function [withDefaults] on the
    cluster. *)
Lemma defaultsThen_run (k : M unit) (st : St) :
  defaultsThen k st = k (mkSt (withDefaults (cluster st)) (glog st)).
Proof.
  destruct st as [c l].
  unfold defaultsThen, withDefaults, publicTopology, bind, getCluster,
    modifySpec, ret.
  cbn [cluster glog].
  destruct (Topology (Spec c)) as [t|]; cbn [cluster glog];
    match goal with
    | |- context [(NetworkCIDR (Spec ?x) =? EmptyString) && negb (SharedVPC ?x)] =>
        destruct ((NetworkCIDR (Spec x) =? EmptyString) && negb (SharedVPC x))
    end; cbn [cluster glog];
    match goal with
    | |- context [NonMasqueradeCIDR (Spec ?x) =? EmptyString] =>
        destruct (NonMasqueradeCIDR (Spec x) =? EmptyString)
    end; cbn [cluster glog];
    match goal with
    | |- context [(MasterPublicName (Spec ?x) =? EmptyString) && ?y] =>
        destruct ((MasterPublicName (Spec x) =? EmptyString) && y)
    end; reflexivity.
Qed.

(** What the defaulting steps make of the fields they govern. *)
Lemma withDefaults_fields (c : Cluster) :
  ObjectMeta_ (withDefaults c) = ObjectMeta_ c
  /\ EgressProxy (Spec (withDefaults c)) = EgressProxy (Spec c)
  /\ KubernetesVersion (Spec (withDefaults c)) = KubernetesVersion (Spec c)
  /\ CloudProvider (Spec (withDefaults c)) = CloudProvider (Spec c)
  /\ NonMasqueradeCIDR (Spec (withDefaults c))
     = (if NonMasqueradeCIDR (Spec c) =? EmptyString
        then "100.64.0.0/10" else NonMasqueradeCIDR (Spec c))
  /\ Topology (Spec (withDefaults c))
     = Some match Topology (Spec c) with
            | Some t => t
            | None => publicTopology
            end
  /\ MasterPublicName (Spec (withDefaults c))
     = (if (MasterPublicName (Spec c) =? EmptyString)
           && negb (Name (ObjectMeta_ c) =? EmptyString)
        then "api." ++ Name (ObjectMeta_ c)
        else MasterPublicName (Spec c))%string
  /\ (NetworkCIDR (Spec c) <> EmptyString ->
      NetworkCIDR (Spec (withDefaults c)) = NetworkCIDR (Spec c)).
Proof.
  destruct c as [[name] [ch cp kv ncidr nid topo nm mpn dns subs ep]].
  unfold withDefaults, publicTopology. cbn.
  destruct topo as [t|];
    destruct (ncidr =? EmptyString) eqn:Hn;
    destruct (nm =? EmptyString) eqn:Hm;
    destruct (mpn =? EmptyString) eqn:Hp;
    destruct (name =? EmptyString) eqn:Hname;
    cbn;
    try match goal with
        | |- context [SharedVPC ?x] => destruct (SharedVPC x)
        end;
    repeat progress (rewrite ?Hn, ?Hm, ?Hp, ?Hname; cbn);
    repeat split; try reflexivity;
    try (intros Hne; apply String.eqb_neq in Hne; congruence).
Qed.

Lemma untouched_ret {X A} (f : Cluster -> X) (x : A) : untouched f (ret x).
Proof. intros st. reflexivity. Qed.

Lemma untouched_fail {X A} (f : Cluster -> X) (err : error) :
  untouched f (@fail A err).
Proof. intros st. reflexivity. Qed.

Lemma untouched_try {X A} (f : Cluster -> X) (r : A + error) :
  untouched f (try r).
Proof. intros st. reflexivity. Qed.

Lemma untouched_glogf {X} (f : Cluster -> X) (l : LogLine) :
  untouched f (glogf l).
Proof. intros st. reflexivity. Qed.

Lemma untouched_getCluster {X} (f : Cluster -> X) : untouched f getCluster.
Proof. intros st. reflexivity. Qed.

Lemma untouched_bind {X A B} (f : Cluster -> X) (m : M A) (k : A -> M B) :
  untouched f m -> (forall x, untouched f (k x)) -> untouched f (bind m k).
Proof.
  intros Hm Hk st. unfold bind. specialize (Hm st).
  destruct (m st) as [st' [x|err]]; simpl in *.
  - rewrite <- Hm. apply Hk.
  - exact Hm.
Qed.

Lemma untouched_results {X A} (f : Cluster -> X) (m : M A) :
  untouched f m -> untouched f (results m).
Proof.
  intros Hm st. unfold results. specialize (Hm st).
  destruct (m st) as [st' r]. exact Hm.
Qed.

Lemma untouched_modifySpec {X} (f : Cluster -> X)
      (g : ClusterSpec -> ClusterSpec) :
  (forall c, f (withSpec g c) = f c) -> untouched f (modifySpec g).
Proof. intros Hg st. apply Hg. Qed.

Lemma assignProxy_untouched {X} (f : Cluster -> X) :
  (forall v c, f (withSpec (setEgressProxy v) c) = f c) ->
  untouched f assignProxy.
Proof.
  intros Hep.
  unfold assignProxy. apply untouched_bind; [apply untouched_getCluster|].
  intros c. destruct (EgressProxy (Spec c)) as [proxy|].
  - apply untouched_bind;
      [intros st; unfold tryOr; destruct (net_ParseCIDR _); reflexivity|].
    intros ipnet. apply untouched_bind;
      [intros st; unfold tryOr; destruct (incrementIP _ _); reflexivity|].
    intros firstIP. cbv zeta. apply untouched_bind.
    + destruct (negb (NetworkCIDR (Spec c) =? EmptyString));
        [apply untouched_ret|].
      apply untouched_bind; [apply untouched_glogf|].
      intros _. apply untouched_ret.
    + intros slice. apply untouched_bind;
        [apply untouched_modifySpec, Hep|].
      intros _. apply untouched_bind; [apply untouched_glogf|].
      intros _. apply untouched_ret.
  - apply untouched_bind; [apply untouched_glogf|].
    intros _. apply untouched_ret.
Qed.

Lemma FindLatestKubernetesVersion_untouched {X} (f : Cluster -> X) :
  untouched f FindLatestKubernetesVersion.
Proof.
  unfold FindLatestKubernetesVersion.
  apply untouched_bind; [apply untouched_glogf|]. intros _.
  destruct (vfs_ReadFile _); [apply untouched_ret | apply untouched_fail].
Qed.

Lemma ensureKubernetesVersion_untouched {X} (f : Cluster -> X) :
  (forall v c, f (withSpec (setKubernetesVersion v) c) = f c) ->
  untouched f ensureKubernetesVersion.
Proof.
  intros Hkv. unfold ensureKubernetesVersion.
  apply untouched_bind; [apply untouched_getCluster|]. intros c.
  apply untouched_bind.
  - destruct (KubernetesVersion (Spec c) =? EmptyString);
      [|apply untouched_ret].
    destruct (negb (Channel (Spec c) =? EmptyString));
      [|apply untouched_glogf].
    apply untouched_bind; [apply untouched_try|]. intros channel.
    cbv zeta. destruct (RecommendedKubernetesVersion _ _);
      [|apply untouched_glogf].
    apply untouched_bind; [apply untouched_modifySpec, Hkv|].
    intros _. apply untouched_glogf.
  - intros _. apply untouched_bind; [apply untouched_getCluster|].
    intros c'. apply untouched_bind; [|intros _; apply untouched_ret].
    destruct (KubernetesVersion (Spec c') =? EmptyString);
      [|apply untouched_ret].
    apply untouched_bind; [apply FindLatestKubernetesVersion_untouched|].
    intros v.
    apply untouched_bind; [apply untouched_glogf|]. intros _.
    apply untouched_modifySpec, Hkv.
Qed.

(** What does not read the subnets, the proxy or the version is not
    changed by the last three steps of [PerformAssignments]. *)
Lemma assignmentsTail_untouched {X} (f : Cluster -> X) :
  (forall v c, f (withSpec (setSubnets v) c) = f c) ->
  (forall v c, f (withSpec (setEgressProxy v) c) = f c) ->
  (forall v c, f (withSpec (setKubernetesVersion v) c) = f c) ->
  untouched f assignmentsTail.
Proof.
  intros Hsub Hep Hkv.
  unfold assignmentsTail, assignCIDRsToSubnets.
  apply untouched_bind.
  - apply untouched_bind; [apply untouched_getCluster|]. intros c.
    apply untouched_bind; [apply untouched_try|]. intros subnets.
    apply untouched_modifySpec, Hsub.
  - intros _. apply untouched_bind;
      [apply untouched_results, assignProxy_untouched, Hep|].
    intros [egressProxy|err].
    + apply untouched_bind; [apply untouched_modifySpec, Hep|].
      intros _. now apply ensureKubernetesVersion_untouched.
    + apply untouched_bind; [apply untouched_modifySpec, Hep|].
      intros _. apply untouched_fail.
Qed.

(** The last three steps, by what the subnet step and [assignProxy]
    return. *)
Lemma assignmentsTail_run (st : St) :
  assignmentsTail st
  = match subnetsWithCIDRs (cluster st) with
    | inr err => (st, inr err)
    | inl subnets =>
        let st3 := mkSt (withSpec (setSubnets subnets) (cluster st))
                        (glog st) in
        match assignProxy st3 with
        | (st4, inr err) =>
            (mkSt (withSpec (setEgressProxy None) (cluster st4)) (glog st4),
             inr err)
        | (st4, inl egressProxy) =>
            ensureKubernetesVersion
              (mkSt (withSpec (setEgressProxy egressProxy) (cluster st4))
                    (glog st4))
        end
    end.
Proof.
  unfold assignmentsTail, assignCIDRsToSubnets.
  unfold bind at 1 2 3 4. unfold getCluster, try, results, modifySpec.
  cbn [cluster glog].
  destruct (subnetsWithCIDRs (cluster st)) as [subnets|err]; [|reflexivity].
  cbv zeta.
  destruct (assignProxy _) as [st4 [egressProxy|err]]; reflexivity.
Qed.

(** The run of [PerformAssignments]: the cloud, the VPC lookup for a
    shared VPC without a network CIDR, then the defaults and the last
    three steps. *)
Lemma PerformAssignments_run (st : St) :
  PerformAssignments st
  = match BuildCloud (cluster st) with
    | inr err => (st, inr err)
    | inl cloud =>
        let c := cluster st in
        if SharedVPC c && (NetworkCIDR (Spec c) =? EmptyString) then
          match FindVPCInfo cloud (NetworkID (Spec c)) with
          | inr err => (st, inr err)
          | inl None =>
              (st, inr (Errorf "unable to find VPC ID %q"
                               [ArgStr (NetworkID (Spec c))]))
          | inl (Some vpcInfo) =>
              let c1 := withSpec (setNetworkCIDR (CIDR vpcInfo)) c in
              if CIDR vpcInfo =? EmptyString then
                (mkSt c1 (glog st),
                 inr (Errorf
                   "Unable to infer NetworkCIDR from VPC ID, please specify --network-cidr"
                   []))
              else assignmentsTail (mkSt (withDefaults c1) (glog st))
          end
        else assignmentsTail (mkSt (withDefaults c) (glog st))
    end.
Proof.
  rewrite PerformAssignments_stages.
  unfold bind at 1 2 3. unfold getCluster, try. cbn [cluster].
  destruct (BuildCloud (cluster st)) as [cloud|err]; [|reflexivity].
  cbv zeta.
  destruct (SharedVPC (cluster st)
            && (NetworkCIDR (Spec (cluster st)) =? EmptyString)).
  - unfold bind, modifySpec, fail, ret.
    destruct (FindVPCInfo cloud (NetworkID (Spec (cluster st))))
      as [[vpcInfo|]|err]; try reflexivity.
    destruct (CIDR vpcInfo =? EmptyString); [reflexivity|].
    now rewrite defaultsThen_run.
  - unfold ret. now rewrite defaultsThen_run.
Qed.

(** A successful run went through the last three steps, from the
    defaults of the cluster as it was or as the VPC lookup left it. *)
Lemma PerformAssignments_success (st : St) :
  snd (PerformAssignments st) = inl tt ->
  exists c1,
    PerformAssignments st
    = assignmentsTail (mkSt (withDefaults c1) (glog st))
    /\ ((c1 = cluster st
         /\ SharedVPC (cluster st)
            && (NetworkCIDR (Spec (cluster st)) =? EmptyString) = false)
        \/ exists cloud vpcInfo,
             BuildCloud (cluster st) = inl cloud
             /\ FindVPCInfo cloud (NetworkID (Spec (cluster st)))
                = inl (Some vpcInfo)
             /\ CIDR vpcInfo <> EmptyString
             /\ c1 = withSpec (setNetworkCIDR (CIDR vpcInfo)) (cluster st)).
Proof.
  rewrite PerformAssignments_run.
  destruct (BuildCloud (cluster st)) as [cloud|err] eqn:Hcloud;
    [|discriminate].
  cbv zeta.
  destruct (SharedVPC (cluster st)
            && (NetworkCIDR (Spec (cluster st)) =? EmptyString)) eqn:Hshared.
  - destruct (FindVPCInfo cloud (NetworkID (Spec (cluster st))))
      as [[vpcInfo|]|err] eqn:Hvpc; try discriminate.
    destruct (CIDR vpcInfo =? EmptyString) eqn:Hcidr; [discriminate|].
    intros _. eexists. split; [reflexivity|]. right.
    exists cloud, vpcInfo. apply String.eqb_neq in Hcidr.
    repeat split; assumption.
  - intros _. eexists. split; [reflexivity|]. now left.
Qed.

(** X8. The failures of [PerformAssignments] before the defaulting
    leave the cluster as it was: a cloud that cannot be built and a
    failing VPC lookup return their error with the state untouched; for
    a shared VPC without a network CIDR, a VPC that is not found gives
    the error naming the VPC id, and a VPC without a CIDR gives the
    error asking for the network CIDR. *)
Theorem PerformAssignments_early_failures (st : St) :
  let c := cluster st in
  (forall err,
      BuildCloud c = inr err -> PerformAssignments st = (st, inr err))
  /\ (forall cloud,
         BuildCloud c = inl cloud ->
         SharedVPC c = true ->
         NetworkCIDR (Spec c) = EmptyString ->
         (forall err,
             FindVPCInfo cloud (NetworkID (Spec c)) = inr err ->
             PerformAssignments st = (st, inr err))
         /\ (FindVPCInfo cloud (NetworkID (Spec c)) = inl None ->
             PerformAssignments st
             = (st, inr (Errorf "unable to find VPC ID %q"
                                [ArgStr (NetworkID (Spec c))])))
         /\ (forall vpcInfo,
                FindVPCInfo cloud (NetworkID (Spec c)) = inl (Some vpcInfo) ->
                CIDR vpcInfo = EmptyString ->
                cluster (fst (PerformAssignments st)) = c
                /\ snd (PerformAssignments st)
                   = inr (Errorf
                       "Unable to infer NetworkCIDR from VPC ID, please specify --network-cidr"
                       []))).
Proof.
  intros c. subst c. split.
  - intros err Hcloud. now rewrite PerformAssignments_run, Hcloud.
  - intros cloud Hcloud Hshared Hcidr.
    rewrite PerformAssignments_run, Hcloud. cbv zeta.
    rewrite Hshared, Hcidr. cbn [andb String.eqb].
    split; [|split].
    + intros err Hvpc. now rewrite Hvpc.
    + intros Hvpc. now rewrite Hvpc.
    + intros vpcInfo Hvpc Hempty. rewrite Hvpc, Hempty. cbn. split.
      * destruct st as [[meta spec] l]. destruct spec. cbn in *.
        now subst.
      * reflexivity.
Qed.

(** X9. After a successful [PerformAssignments] the fields it
    defaults read: the non-masquerade CIDR as given, or [100.64.0.0/10];
    the topology as given, or public masters and nodes; the public name
    of the master as given, or [api.] before the name of the cluster
    when that name is not empty; and, for a shared VPC that came
    without a network CIDR, the CIDR the cloud reports for it, which is
    not empty. *)
Theorem PerformAssignments_defaults (st : St) :
  snd (PerformAssignments st) = inl tt ->
  let c := cluster st in
  let c' := cluster (fst (PerformAssignments st)) in
  ObjectMeta_ c' = ObjectMeta_ c
  /\ NonMasqueradeCIDR (Spec c')
     = (if NonMasqueradeCIDR (Spec c) =? EmptyString
        then "100.64.0.0/10" else NonMasqueradeCIDR (Spec c))
  /\ Topology (Spec c')
     = Some match Topology (Spec c) with
            | Some t => t
            | None => publicTopology
            end
  /\ MasterPublicName (Spec c')
     = (if (MasterPublicName (Spec c) =? EmptyString)
           && negb (Name (ObjectMeta_ c) =? EmptyString)
        then "api." ++ Name (ObjectMeta_ c)
        else MasterPublicName (Spec c))%string
  /\ (SharedVPC c = true ->
      NetworkCIDR (Spec c) = EmptyString ->
      exists cloud vpcInfo,
        BuildCloud c = inl cloud
        /\ FindVPCInfo cloud (NetworkID (Spec c)) = inl (Some vpcInfo)
        /\ CIDR vpcInfo <> EmptyString
        /\ NetworkCIDR (Spec c') = CIDR vpcInfo).
Proof.
  intros Hok c c'. subst c c'.
  destruct (PerformAssignments_success st Hok) as [c1 [Hrun Hc1]].
  rewrite Hrun.
  pose proof (@assignmentsTail_untouched _
                (fun c => (ObjectMeta_ c, NonMasqueradeCIDR (Spec c),
                           Topology (Spec c), MasterPublicName (Spec c),
                           NetworkCIDR (Spec c)))
                (fun _ _ => eq_refl) (fun _ _ => eq_refl)
                (fun _ _ => eq_refl)
                (mkSt (withDefaults c1) (glog st))) as Hkeep.
  cbn [cluster] in Hkeep.
  injection Hkeep as Hmeta Hnm Htopo Hmpn Hnet.
  rewrite Hmeta, Hnm, Htopo, Hmpn, Hnet.
  destruct (withDefaults_fields c1)
    as (Dmeta & _ & _ & _ & Dnm & Dtopo & Dmpn & Dnet).
  rewrite Dmeta, Dnm, Dtopo, Dmpn.
  destruct Hc1 as [[-> Hshared] | (cloud & vpcInfo & Hcloud & Hvpc & Hne & ->)].
  - repeat split.
    intros Hs Hn. rewrite Hs, Hn in Hshared. discriminate.
  - repeat split.
    intros _ _. exists cloud, vpcInfo. repeat split; try assumption.
    rewrite Dnet; [reflexivity | exact Hne].
Qed.

(** X10. A proxy that cannot be set up costs the cluster its proxy.
    For a cluster with a proxy, a network CIDR and a non-masquerade
    CIDR that does not parse, when the cloud is built and the subnet
    step succeeds on the defaulted cluster: [PerformAssignments] fails
    with the parse error of [assignProxy], and the cluster is left with
    a nil [EgressProxy]. *)
Theorem PerformAssignments_proxy_failure
        (st : St) (cloud : Cloud) (proxy : EgressProxySpec)
        (subnets : list ClusterSubnetSpec) (cause : error) :
  let c := cluster st in
  BuildCloud c = inl cloud ->
  NetworkCIDR (Spec c) <> EmptyString ->
  NonMasqueradeCIDR (Spec c) <> EmptyString ->
  net_ParseCIDR (NonMasqueradeCIDR (Spec c)) = inr cause ->
  EgressProxy (Spec c) = Some proxy ->
  subnetsWithCIDRs (withDefaults c) = inl subnets ->
  snd (PerformAssignments st) = inr cannotParse
  /\ EgressProxy (Spec (cluster (fst (PerformAssignments st)))) = None.
Proof.
  intros c Hcloud Hnet Hnm Hparse Hp Hsub. subst c.
  rewrite PerformAssignments_run, Hcloud. cbv zeta.
  apply String.eqb_neq in Hnet. rewrite Hnet, andb_false_r.
  rewrite assignmentsTail_run. cbn [cluster glog]. rewrite Hsub. cbv zeta.
  destruct (withDefaults_fields (cluster st))
    as (_ & Dep & _ & _ & Dnm & _).
  apply String.eqb_neq in Hnm. rewrite Hnm in Dnm.
  set (st3 := mkSt (withSpec (setSubnets subnets) (withDefaults (cluster st)))
                   (glog st)).
  assert (EgressProxy (Spec (cluster st3)) = Some proxy) as Hp3
      by (cbn; now rewrite Dep).
  pose proof (assignProxy_paths st3 Hp3) as Hpaths.
  assert (NonMasqueradeCIDR (Spec (cluster st3))
          = NonMasqueradeCIDR (Spec (cluster st))) as Hnm3 by exact Dnm.
  rewrite Hnm3, Hparse in Hpaths. rewrite Hpaths. split; reflexivity.
Qed.

Lemma candidates_members (c : Cluster) (firstIP : string) :
  In "127.0.0.1" (candidates c firstIP)
  /\ In "localhost" (candidates c firstIP)
  /\ (NonMasqueradeCIDR (Spec c) <> EmptyString ->
      In (NonMasqueradeCIDR (Spec c)) (candidates c firstIP))
  /\ (MasterPublicName (Spec c) <> EmptyString ->
      In (MasterPublicName (Spec c)) (candidates c firstIP))
  /\ (NetworkCIDR (Spec c) <> EmptyString ->
      In (NetworkCIDR (Spec c)) (candidates c firstIP))
  /\ (CloudProvider (Spec c) = "aws" ->
      In "169.254.169.254" (candidates c firstIP)).
Proof.
  unfold candidates. repeat split.
  - apply in_or_app. left. apply filter_In. split; [|reflexivity].
    simpl. tauto.
  - apply in_or_app. left. apply filter_In. split; [|reflexivity].
    simpl. tauto.
  - intros H. apply in_or_app. left. apply filter_In. split.
    + simpl. tauto.
    + apply String.eqb_neq in H. now rewrite H.
  - intros H. apply in_or_app. left. apply filter_In. split.
    + simpl. tauto.
    + apply String.eqb_neq in H. now rewrite H.
  - intros H. apply in_or_app. right. apply in_or_app. right.
    apply String.eqb_neq in H. rewrite H. now left.
  - intros H. apply in_or_app. right. apply in_or_app. left.
    rewrite H. now left.
Qed.

(** X11. The proxy is set up after the defaults, so its excludes cover
    them.  After a successful [PerformAssignments] on a cluster with a
    proxy, the cluster has a proxy whose excludes begin with what the
    user wrote and contain the loopback address, [localhost], the
    non-masquerade CIDR as it now reads, the network CIDR and the
    public name of the master when they are not empty, and on AWS the
    metadata address. *)
Theorem PerformAssignments_proxy_covers_defaults
        (st : St) (proxy : EgressProxySpec) :
  snd (PerformAssignments st) = inl tt ->
  EgressProxy (Spec (cluster st)) = Some proxy ->
  let c' := cluster (fst (PerformAssignments st)) in
  exists once,
    EgressProxy (Spec c') = Some once
    /\ strings.HasPrefix (ProxyExcludes once) (ProxyExcludes proxy) = true
    /\ strings.Contains (ProxyExcludes once) "127.0.0.1" = true
    /\ strings.Contains (ProxyExcludes once) "localhost" = true
    /\ strings.Contains (ProxyExcludes once) (NonMasqueradeCIDR (Spec c'))
       = true
    /\ (NetworkCIDR (Spec c') <> EmptyString ->
        strings.Contains (ProxyExcludes once) (NetworkCIDR (Spec c')) = true)
    /\ (MasterPublicName (Spec c') <> EmptyString ->
        strings.Contains (ProxyExcludes once) (MasterPublicName (Spec c'))
        = true)
    /\ (CloudProvider (Spec (cluster st)) = "aws" ->
        strings.Contains (ProxyExcludes once) "169.254.169.254" = true).
Proof.
  intros Hok Hp c'. subst c'.
  destruct (PerformAssignments_success st Hok) as [c1 [Hrun Hc1]].
  rewrite Hrun in Hok |- *. clear Hrun.
  assert (EgressProxy (Spec c1) = Some proxy
          /\ CloudProvider (Spec c1) = CloudProvider (Spec (cluster st)))
    as [Hp1 Hcp1].
  { destruct Hc1 as [[-> _] | (cloud & vpcInfo & _ & _ & _ & ->)];
      split; try exact Hp; reflexivity. }
  clear Hc1.
  destruct (withDefaults_fields c1)
    as (_ & Dep & _ & Dcp & Dnm & _ & _ & _).
  rewrite assignmentsTail_run in Hok |- *. cbn [cluster glog] in Hok |- *.
  destruct (subnetsWithCIDRs (withDefaults c1)) as [subnets|err];
    [|discriminate].
  cbv zeta in Hok |- *.
  set (st3 := mkSt (withSpec (setSubnets subnets) (withDefaults c1))
                   (glog st)) in *.
  assert (EgressProxy (Spec (cluster st3)) = Some proxy) as Hp3
      by (cbn; now rewrite Dep).
  pose proof (@assignProxy_untouched _
                (fun c => (NonMasqueradeCIDR (Spec c), NetworkCIDR (Spec c),
                           MasterPublicName (Spec c)))
                (fun _ _ => eq_refl) st3) as Hkeep3.
  destruct (assignProxy st3) as [st4 [egressProxy|err]] eqn:Hrun3;
    [|discriminate].
  destruct (@assignProxy_success_excludes _ st3 proxy egressProxy Hp3)
    as (ipnet & firstIP & _ & _ & ->).
  { now rewrite Hrun3. }
  set (once := mkEgressProxySpec
                 (excludesAfter (cluster st3) (ProxyExcludes proxy) firstIP))
    in *.
  assert (strings.HasPrefix (ProxyExcludes once) (ProxyExcludes proxy) = true)
    as Hprefix by apply excludesAfter_prefix.
  assert (forall exclude,
             In exclude (candidates (cluster st3) firstIP) ->
             strings.Contains (ProxyExcludes once) exclude = true) as Hcover
      by (intros exclude Hin; now apply candidates_contained).
  cbn [fst] in Hkeep3. injection Hkeep3 as Knm Knet Kmpn.
  pose proof (@ensureKubernetesVersion_untouched _
                (fun c => (EgressProxy (Spec c), NonMasqueradeCIDR (Spec c),
                           NetworkCIDR (Spec c), MasterPublicName (Spec c)))
                (fun _ _ => eq_refl)
                (mkSt (withSpec (setEgressProxy (Some once)) (cluster st4))
                      (glog st4))) as Hkeep5.
  cbn [cluster] in Hkeep5. injection Hkeep5 as Kep5 Knm5 Knet5 Kmpn5.
  change (NonMasqueradeCIDR
            (Spec (withSpec (setEgressProxy (Some once)) (cluster st4))))
    with (NonMasqueradeCIDR (Spec (cluster st4))) in Knm5.
  change (NetworkCIDR
            (Spec (withSpec (setEgressProxy (Some once)) (cluster st4))))
    with (NetworkCIDR (Spec (cluster st4))) in Knet5.
  change (MasterPublicName
            (Spec (withSpec (setEgressProxy (Some once)) (cluster st4))))
    with (MasterPublicName (Spec (cluster st4))) in Kmpn5.
  rewrite Knm in Knm5. rewrite Knet in Knet5. rewrite Kmpn in Kmpn5.
  destruct (candidates_members (cluster st3) firstIP)
    as (Mlo & Mlh & Mnm & Mmpn & Mnet & Maws).
  exists once. rewrite Kep5, Knm5, Knet5, Kmpn5.
  split; [reflexivity|]. split; [exact Hprefix|].
  split; [now apply Hcover|]. split; [now apply Hcover|].
  split; [|split; [|split]].
  - apply Hcover, Mnm. cbn. rewrite Dnm.
    destruct (NonMasqueradeCIDR (Spec c1) =? EmptyString) eqn:He;
      [discriminate | now apply String.eqb_neq].
  - intros H. now apply Hcover, Mnet.
  - intros H. now apply Hcover, Mmpn.
  - intros H. apply Hcover, Maws. cbn. now rewrite Dcp, Hcp1.
Qed.

End AssignmentsFurther.

(** ** [Context.Render]: what every call does and does not *)

Section RenderFurther.
Import fi RenderSpec.
Context {E : Env}.

(** Every call of [Render] ends in one of four ways: an error with
    nothing touched; the lifecycle report and then the result of the
    policy; the record of the dry-run target; the reflective call of
    the one matching method. *)
Lemma Render_outcomes (c : Context) (a e changes : Task) (w : World) :
  (exists err, Render c a e changes w = (w, Returns (Some err)))
  \/ (exists changeList r,
        (lifecycleOf e = Some LifecycleExistsAndValidates
         \/ lifecycleOf e = Some LifecycleExistsAndWarnIfChanges)
        /\ IsNil a = false
        /\ Render c a e changes w = (reported e changeList w, r))
  \/ (Target_ c = DryRunTarget
      /\ lifecycleOf e <> Some LifecycleExistsAndValidates
      /\ lifecycleOf e <> Some LifecycleExistsAndWarnIfChanges
      /\ Render c a e changes w
         = (mkWorld (stderr w) (glog w) (fs w)
                    (dryRunChanges w ++ [mkRender a e changes]) (ext w)
                    (invoked w), Returns None))
  \/ (exists t m,
        Target_ c = BackendTarget t
        /\ lifecycleOf e <> Some LifecycleExistsAndValidates
        /\ lifecycleOf e <> Some LifecycleExistsAndWarnIfChanges
        /\ filter (matching (TypeOf e) t) (methodSet (TypeOf e)) = [m]
        /\ Render c a e changes w
           = called e m (callArgs c a e changes m) w).
Proof.
  assert (lifecycleOf e <> Some LifecycleExistsAndValidates ->
          lifecycleOf e <> Some LifecycleExistsAndWarnIfChanges ->
          (exists err, Render c a e changes w = (w, Returns (Some err)))
          \/ (Target_ c = DryRunTarget
              /\ Render c a e changes w
                 = (mkWorld (stderr w) (glog w) (fs w)
                            (dryRunChanges w ++ [mkRender a e changes])
                            (ext w) (invoked w), Returns None))
          \/ (exists t m,
                Target_ c = BackendTarget t
                /\ filter (matching (TypeOf e) t) (methodSet (TypeOf e))
                   = [m]
                /\ Render c a e changes w
                   = called e m (callArgs c a e changes m) w))
    as Hrest.
  { intros Hv Hw. rewrite Render_no_short_circuit by assumption.
    unfold renderToTarget. destruct (Target_ c) as [|t] eqn:Ht.
    - right. left. split; reflexivity.
    - rewrite dispatch_matching, Ht. simpl typeOfTarget.
      destruct (filter _ (methodSet (TypeOf e))) as [|m [|m' ms]] eqn:Hf.
      + left. eexists. reflexivity.
      + right. right. exists t, m. repeat split. exact Hf.
      + left. eexists. reflexivity. }
  destruct (lifecycleOf e) as [[| | |name]|] eqn:Hl.
  - destruct Hrest as [H | [[Ht H] | (t & m & Ht & Hf & H)]];
      try discriminate.
    + now left.
    + right. right. left. repeat split; try discriminate; assumption.
    + right. right. right. exists t, m.
      repeat split; try discriminate; assumption.
  - unfold Render, run, bind, lifecycleBlock. rewrite Hl.
    destruct (IsNil a) eqn:Hnil; [left; eexists; reflexivity|].
    destruct (buildChangeList a e changes) as [changeList|err];
      [|left; eexists; reflexivity].
    right. left. exists changeList. eexists. repeat split. now left.
  - unfold Render, run, bind, lifecycleBlock. rewrite Hl.
    destruct (IsNil a) eqn:Hnil; [left; eexists; reflexivity|].
    destruct (buildChangeList a e changes) as [changeList|err];
      [|left; eexists; reflexivity].
    right. left. exists changeList. eexists. repeat split. now right.
  - destruct Hrest as [H | [[Ht H] | (t & m & Ht & Hf & H)]];
      try discriminate.
    + now left.
    + right. right. left. repeat split; try discriminate; assumption.
    + right. right. right. exists t, m.
      repeat split; try discriminate; assumption.
  - destruct Hrest as [H | [[Ht H] | (t & m & Ht & Hf & H)]];
      try discriminate.
    + now left.
    + right. right. left. repeat split; try discriminate; assumption.
    + right. right. right. exists t, m.
      repeat split; try discriminate; assumption.
Qed.


(** X13. [Render] runs at most one method through reflection, and
    only a method of the expected task's type whose name begins with
    [Render] and whose parameters are all acceptable, with the
    arguments resolved for that method; when it runs none, the backend
    state is as before. *)
Theorem Render_calls_only_a_matching_method
        (c : Context) (a e changes : Task) (w : World) :
  let w' := fst (Render c a e changes w) in
  (invoked w' = invoked w /\ ext w' = ext w)
  \/ exists m,
       In m (methodSet (TypeOf e))
       /\ strings.HasPrefix (Name m) "Render" = true
       /\ forallb (acceptable (TypeOf e) (typeOfTarget (Target_ c)))
                  (TypeIn m) = true
       /\ invoked w' = invoked w ++ [(Name m, callArgs c a e changes m)].
Proof.
  intros w'. subst w'.
  destruct (Render_outcomes c a e changes w)
    as [[err H] | [(cl & r & _ & _ & H)
                  | [(_ & _ & _ & H) | (t & m & Ht & _ & _ & Hf & H)]]];
    rewrite H; cbn [fst]; try (left; split; reflexivity).
  unfold called.
  destruct (checkCall (callArgs c a e changes m) (tl (TypeIn m)));
    cbn [fst]; [left; split; reflexivity|].
  right. exists m.
  assert (In m (filter (matching (TypeOf e) t) (methodSet (TypeOf e))))
    as Hin by (rewrite Hf; now left).
  apply filter_In in Hin. destruct Hin as [Hin Hm].
  unfold matching in Hm. apply andb_true_iff in Hm. destruct Hm as [Hn Hp].
  rewrite Ht. repeat split; assumption.
Qed.

(** X14. [Render] does no input or output of its own beyond the
    lifecycle report: it never changes the file system, and it writes
    to the standard error stream only for a present actual under one of
    the two existence policies. *)
Theorem Render_output_only_for_the_report
        (c : Context) (a e changes : Task) (w : World) :
  let w' := fst (Render c a e changes w) in
  fs w' = fs w
  /\ (stderr w' = stderr w
      \/ (IsNil a = false
          /\ (lifecycleOf e = Some LifecycleExistsAndValidates
              \/ lifecycleOf e = Some LifecycleExistsAndWarnIfChanges)
          /\ exists changeList,
               buildChangeList a e changes = inl changeList
               /\ stderr w'
                  = (stderr w
                     ++ lifecycleReport (getTaskName e) changeList)%string)).
Proof.
  intros w'. subst w'.
  assert (lifecycleOf e <> Some LifecycleExistsAndValidates ->
          lifecycleOf e <> Some LifecycleExistsAndWarnIfChanges ->
          fs (fst (Render c a e changes w)) = fs w
          /\ stderr (fst (Render c a e changes w)) = stderr w) as Hother.
  { intros Hv Hw.
    destruct (Render_outcomes c a e changes w)
      as [[err H] | [(cl & r & [Hx|Hx] & _ & H)
                    | [(_ & _ & _ & H) | (t & m & _ & _ & _ & _ & H)]]];
      try contradiction; rewrite H; try (split; reflexivity).
    unfold called.
    destruct (checkCall (callArgs c a e changes m) (tl (TypeIn m)));
      split; reflexivity. }
  destruct (lifecycleOf e) as [[| | |name]|] eqn:Hl;
    try (destruct Hother as [Hfs Herr]; [discriminate | discriminate |];
         split; [exact Hfs | left; exact Herr]).
  - unfold Render, run, bind, lifecycleBlock. rewrite Hl.
    destruct (IsNil a); [cbn; split; [reflexivity | now left]|].
    destruct (buildChangeList a e changes) as [cl|err]; cbn;
      (split; [reflexivity|]); [|now left].
    right. repeat split; [now left|]. now exists cl.
  - unfold Render, run, bind, lifecycleBlock. rewrite Hl.
    destruct (IsNil a); [cbn; split; [reflexivity | now left]|].
    destruct (buildChangeList a e changes) as [cl|err]; cbn;
      (split; [reflexivity|]); [|now left].
    right. repeat split; [now right|]. now exists cl.
Qed.

End RenderFurther.

(** ** [NewContext] and [Close] *)

Section Directories.
Import fi ContextDirs.
Context {E : Env}.
Variable ioutil_TempDir : string -> string -> FS -> FS * (string + error).

(** X15. [NewContext] asks once for a directory with the prefix
    [deploy] in the default place.  When that fails it returns no
    Context and an error wrapping the cause.  When it succeeds the
    Context carries the new directory, the target, the flag and the
    tasks it was given, and [Close] on that Context removes exactly
    that directory, unless its name is empty, in which case [Close]
    leaves the file system alone. *)
Theorem NewContext_then_Close
        (target : Target) (checkExisting : bool)
        (tasks : list (string * Task)) (w : World) :
  match NewContext ioutil_TempDir target checkExisting tasks w with
  | (w1, inr err) =>
      exists cause,
        ioutil_TempDir EmptyString "deploy" (fs w) = (fs w1, inr cause)
        /\ err = Errorf "error creating temporary directory: %v"
                        [ArgErr cause]
  | (w1, inl c) =>
      ioutil_TempDir EmptyString "deploy" (fs w) = (fs w1, inl (Tmpdir c))
      /\ Target_ c = target
      /\ CheckExisting c = checkExisting
      /\ AllTasks c = tasks
      /\ (Tmpdir c <> EmptyString ->
          fs (Close c w1) = fst (os_RemoveAll (Tmpdir c) (fs w1)))
      /\ (Tmpdir c = EmptyString -> fs (Close c w1) = fs w1)
  end.
Proof.
  unfold NewContext, run, bind, TempDir.
  destruct (ioutil_TempDir EmptyString "deploy" (fs w)) as [fs1 [t|cause]];
    cbn.
  - repeat split.
    + intros Hne. unfold Close, run, bind, glogf, RemoveAll. cbn.
      apply String.eqb_neq in Hne. rewrite Hne. cbn.
      destruct (os_RemoveAll t fs1) as [fs2 [err|]]; reflexivity.
    + intros ->. reflexivity.
  - exists cause. split; reflexivity.
Qed.

End Directories.

(** ** The further properties on the sample data *)

Section FurtherWitnesses.
Import fi RenderSpec kops cloudup ProxySpec DefaultingSpec ContextDirs.
Import Examples NetExamples CloudupExamples FurtherExamples.

(** The address 10.0.0.255 in its 16-byte form becomes 10.0.1.0. *)
Lemma incrementLoop_adds_one_witness :
  let ip := (v4InV6Prefix ++ [10; 0; 0; 255])%Z in
  Forall isByte ip
  /\ incrementLoop 16 ip = (v4InV6Prefix ++ [10; 0; 1; 0])%Z
  /\ beValue (incrementLoop 16 ip)
     = ((beValue ip + 1) mod 256 ^ 16)%Z.
Proof.
  intros ip.
  assert (Forall isByte ip) as Hall
      by (repeat constructor; unfold isByte; lia).
  split; [exact Hall|]. split; [reflexivity|].
  exact (proj2 (proj2 (@incrementLoop_adds_one ip Hall))).
Defined.

(** The cluster whose non-masquerade CIDR is no CIDR. *)
Lemma assignProxy_failure_witness :
  let st := mkSt brokenCluster [] in
  snd (assignProxy (E := cloudEnv) st) = inr cannotParse
  /\ fst (assignProxy (E := cloudEnv) st) = st
  /\ EgressProxy (Spec (cluster st)) <> None.
Proof.
  intros st. split; [reflexivity|].
  destruct (@assignProxy_failure cloudEnv st cannotParse eq_refl)
    as (Hst & Hp & _).
  split; assumption.
Defined.

Lemma assignProxy_keeps_and_covers_witness :
  let st := mkSt proxiedCluster [] in
  exists once ipnet firstIP,
    Some (mkEgressProxySpec
            "localhost,10.1.2.3,127.0.0.1,cluster.local,api.k.example.com,k.example.com,100.64.0.1,100.64.0.0/10,169.254.169.254,172.20.0.0/16")
    = Some once
    /\ net_ParseCIDR (Env := cloudEnv)
                     (NonMasqueradeCIDR (Spec (cluster st))) = inl ipnet
    /\ incrementIP (E := cloudEnv) (fst ipnet)
                   (NonMasqueradeCIDR (Spec (cluster st))) = inl firstIP
    /\ strings.HasPrefix (ProxyExcludes once) "localhost,10.1.2.3" = true
    /\ forall exclude,
         In exclude (candidates (cluster st) firstIP) ->
         strings.Contains (ProxyExcludes once) exclude = true.
Proof.
  intros st.
  exact (@assignProxy_keeps_and_covers cloudEnv st
           (mkEgressProxySpec "localhost,10.1.2.3") _ eq_refl eq_refl).
Defined.

(** A cluster without a proxy and with no CIDR at all. *)
Lemma assignProxy_frame_witness :
  let st := mkSt channellessCluster [] in
  cluster (fst (assignProxy (E := cloudEnv) st)) = channellessCluster
  /\ snd (assignProxy (E := cloudEnv) st) = inl None.
Proof.
  intros st.
  exact (proj2 (proj2 (@assignProxy_frame cloudEnv st)) eq_refl).
Defined.

(** The fresh cluster takes the version its channel recommends. *)
Lemma ensureKubernetesVersion_order_witness :
  let st := mkSt freshCluster [] in
  ensureKubernetesVersion (E := cloudEnv) st
  = (mkSt (withSpec (setKubernetesVersion "1.7.2") freshCluster)
          [Infof 0 "Using KubernetesVersion %q from channel %q"
                 [ArgStr "1.7.2"; ArgStr "stable"]],
     inl tt).
Proof.
  intros st.
  refine (proj2 (proj2 (@ensureKubernetesVersion_order cloudEnv st)
                       eq_refl _) "1.7.2" "1.7.2" eq_refl eq_refl _);
    discriminate.
Defined.

(** No channel and a blank text at the stable location: the call
    succeeds and the version stays empty. *)
(** The version at the stable location, between a no-break space and
    a blank before it and an ideographic space and a line break after
    it. *)
Lemma FindLatestKubernetesVersion_result_witness :
  vfs_ReadFile (Env := paddedEnv) stableURL
  = inl (nbsp ++ " v1.7.0" ++ ideographicSpace ++ nl)%string
  /\ snd (FindLatestKubernetesVersion (E := paddedEnv)
            (mkSt channellessCluster []))
     = inl "v1.7.0".
Proof.
  split; [reflexivity|].
  destruct (@FindLatestKubernetesVersion_result paddedEnv
              (mkSt channellessCluster [])) as [_ [version [Hv [Ht _]]]].
  rewrite Hv, Ht. reflexivity.
Defined.

Lemma ensureKubernetesVersion_empty_only_if_blank_witness :
  let st := mkSt channellessCluster [] in
  snd (ensureKubernetesVersion (E := blankEnv) st) = inl tt
  /\ KubernetesVersion
       (Spec (cluster (fst (ensureKubernetesVersion (E := blankEnv) st))))
     = EmptyString
  /\ exists b,
       vfs_ReadFile (Env := blankEnv) stableURL = inl b
       /\ strings.TrimSpace b = EmptyString.
Proof.
  intros st. split; [reflexivity|]. split; [reflexivity|].
  exact (@ensureKubernetesVersion_empty_only_if_blank blankEnv st
           eq_refl eq_refl).
Defined.

(** A cloud that cannot be built; a shared VPC the cloud does not
    know. *)
Lemma PerformAssignments_early_failures_witness :
  PerformAssignments (E := cloudEnv) (mkSt unknownCloudCluster [])
  = (mkSt unknownCloudCluster [],
     inr (Errorf "unknown CloudProvider %q" [ArgStr "vapor"]))
  /\ PerformAssignments (E := cloudEnv) (mkSt (sharedCluster "vpc-0") [])
     = (mkSt (sharedCluster "vpc-0") [],
        inr (Errorf "unable to find VPC ID %q" [ArgStr "vpc-0"])).
Proof.
  split.
  - exact (proj1 (@PerformAssignments_early_failures cloudEnv
                    (mkSt unknownCloudCluster [])) _ eq_refl).
  - exact (proj1 (proj2 (proj2 (@PerformAssignments_early_failures cloudEnv
                    (mkSt (sharedCluster "vpc-0") [])) "aws"
                    eq_refl eq_refl eq_refl)) eq_refl).
Defined.

(** The cluster in the shared VPC the cloud knows. *)
Lemma PerformAssignments_defaults_witness :
  let st := mkSt (sharedCluster "vpc-12345") [] in
  let c' := cluster (fst (PerformAssignments (E := cloudEnv) st)) in
  snd (PerformAssignments (E := cloudEnv) st) = inl tt
  /\ NonMasqueradeCIDR (Spec c') = "100.64.0.0/10"
  /\ Topology (Spec c') = Some (mkTopologySpec "public" "public")
  /\ MasterPublicName (Spec c') = "api.k.example.com"
  /\ NetworkCIDR (Spec c') = "10.0.0.0/16".
Proof.
  intros st c'. split; [reflexivity|].
  destruct (@PerformAssignments_defaults cloudEnv st eq_refl)
    as (_ & Hnm & Htopo & Hmpn & Hvpc).
  split; [exact Hnm|]. split; [exact Htopo|]. split; [exact Hmpn|].
  reflexivity.
Defined.

(** The cluster whose non-masquerade CIDR is no CIDR loses its
    proxy. *)
Lemma PerformAssignments_proxy_failure_witness :
  let st := mkSt brokenCluster [] in
  snd (PerformAssignments (E := cloudEnv) st) = inr cannotParse
  /\ EgressProxy
       (Spec (cluster (fst (PerformAssignments (E := cloudEnv) st))))
     = None.
Proof.
  intros st.
  refine (@PerformAssignments_proxy_failure cloudEnv st "aws"
            (mkEgressProxySpec "localhost,10.1.2.3") []
            (Errorf "invalid CIDR address: %s" [ArgStr "not-a-cidr"])
            eq_refl _ _ eq_refl eq_refl eq_refl); discriminate.
Defined.

(** The fresh cluster: the excludes hold the defaults it was given. *)
Lemma PerformAssignments_proxy_covers_defaults_witness :
  let st := mkSt freshCluster [] in
  exists once,
    EgressProxy
      (Spec (cluster (fst (PerformAssignments (E := cloudEnv) st))))
    = Some once
    /\ strings.HasPrefix (ProxyExcludes once) "localhost,10.1.2.3" = true
    /\ strings.Contains (ProxyExcludes once) "100.64.0.0/10" = true.
Proof.
  intros st.
  destruct (@PerformAssignments_proxy_covers_defaults cloudEnv st
              (mkEgressProxySpec "localhost,10.1.2.3") eq_refl eq_refl)
    as (once & Hep & Hprefix & _ & _ & Hnm & _).
  exists once. split; [exact Hep|]. split; [exact Hprefix|]. exact Hnm.
Defined.


(** A context made over the example file system, and closed. *)
Lemma NewContext_then_Close_witness :
  let target := BackendTarget "*awsup.AWSAPITarget" in
  (exists w1 c,
      NewContext (E := renderEnv) exTempDir target true [] exWorld
      = (w1, inl c)
      /\ Tmpdir c = "/tmp/deploy042"
      /\ fs w1 = fs exWorld ++ [("/tmp/deploy042", false)]
      /\ fs (Close c w1) = fs exWorld)
  /\ match NewContext (E := renderEnv) exTempDir target true [] exWorld with
     | (w1, inr err) =>
         exists cause,
           exTempDir EmptyString "deploy" (fs exWorld) = (fs w1, inr cause)
           /\ err = Errorf "error creating temporary directory: %v"
                           [ArgErr cause]
     | (w1, inl c) =>
         exTempDir EmptyString "deploy" (fs exWorld)
         = (fs w1, inl (Tmpdir c))
         /\ Target_ c = target
         /\ CheckExisting c = true
         /\ AllTasks c = []
         /\ (Tmpdir c <> EmptyString ->
             fs (Close c w1) = fst (os_RemoveAll (Tmpdir c) (fs w1)))
         /\ (Tmpdir c = EmptyString -> fs (Close c w1) = fs w1)
     end.
Proof.
  intros target. split.
  - eexists. eexists. split; [reflexivity|].
    split; [reflexivity|]. split; reflexivity.
  - exact (@NewContext_then_Close renderEnv exTempDir target true []
             exWorld).
Defined.

End FurtherWitnesses.
